(** * The fMRI decoding notebook: timing alignment, run-wise normalisation
      and leave-one-run-out decoding

    A shallow embedding of the three functions defined in
    [keys/03.1-modules-vs-distributed-processing.ipynb]
    ([label2TR], [normalize], [decode]) together with the library
    behaviour they rely on, and the properties of the written
    specification checked against them.

    Conventions.
    - Python integers are [Z]; numpy [float64] values are binary64
      floating-point numbers ([float], with the IEEE operations of
      [PrimFloat]); accuracy scores are kept as rationals [Q].
    - A Python exception is a value [Raise e] of the [result] monad.
    - numpy arrays indexed along their first axis are lists, read with
      [!!] and written with [<[ _ := _ ]>]; Python's index rules (negative
      indices count from the end, out-of-range raises) are in
      [Py.index]. *)

From Stdlib Require Import ZArith QArith Qround Floats Lia.
From stdpp Require Import base list gmap sorting.

Local Open Scope Z_scope.

(** ** Python values and control flow *)

Module Py.

Inductive exn : Type :=
| ZeroDivisionError
| ValueError
| OverflowError
| IndexError
| ReferenceError.

Inductive result (A : Type) : Type :=
| Ok (a : A)
| Raise (e : exn).
Arguments Ok {A} a.
Arguments Raise {A} e.

Definition bind {A B} (r : result A) (k : A -> result B) : result B :=
  match r with
  | Ok a => k a
  | Raise e => Raise e
  end.

Definition raises {A} (r : result A) : Prop :=
  match r with
  | Ok _ => False
  | Raise _ => True
  end.

(** [for x in xs: s = body(x, s)], stopping at the first exception. *)
Fixpoint for_ {A S} (xs : list A) (body : A -> S -> result S) (s : S)
  : result S :=
  match xs with
  | [] => Ok s
  | x :: xs' => bind (body x s) (for_ xs' body)
  end.

(** [range(n)]: empty when [n <= 0]. *)
Definition range (n : Z) : list Z := seqZ 0 n.

(** [int(x)] on a float: truncation toward zero of a finite value,
    [ValueError] on [nan], [OverflowError] on an infinity. *)
Definition int_of_float (x : float) : result Z :=
  match Prim2SF x with
  | S754_zero _ => Ok 0
  | S754_finite s m e =>
      let magnitude := Z.shiftl (Z.pos m) e in
      Ok (if s then - magnitude else magnitude)
  | S754_infinity _ => Raise OverflowError
  | S754_nan => Raise ValueError
  end.

(** [int(a / b)] on Python integers: true division, then truncation.
    (The float quotient of two integers is correctly rounded; below
    2^53 in magnitude, as every array length is, truncating it gives
    the integer quotient.) *)
Definition int_truediv (a b : Z) : result Z :=
  if b =? 0 then Raise ZeroDivisionError else Ok (Z.quot a b).

(** [int(x / y)] where [x] is a numpy float: the quotient is the
    IEEE one (dividing by zero gives [nan] or an infinity and raises
    nothing), and [int] is applied to the rounded quotient. *)
Definition int_np_div (x y : float) : result Z :=
  int_of_float (x / y)%float.

(** Position denoted by index [i] in a sequence of length [len]. *)
Definition index (len : nat) (i : Z) : result nat :=
  if (0 <=? i) && (i <? Z.of_nat len) then Ok (Z.to_nat i)
  else if (- Z.of_nat len <=? i) && (i <? 0)
       then Ok (Z.to_nat (Z.of_nat len + i))
       else Raise IndexError.

(** [l[i]] *)
Definition getitem {A} (l : list A) (i : Z) : result A :=
  bind (index (length l) i) (fun p =>
    match l !! p with
    | Some x => Ok x
    | None => Raise IndexError
    end).

(** [l[i] = x] *)
Definition setitem {A} (l : list A) (i : Z) (x : A) : result (list A) :=
  bind (index (length l) i) (fun p => Ok (<[p := x]> l)).

(** [np.zeros((n, 1))], one entry per row. *)
Definition np_zeros (n : Z) : result (list float) :=
  if n <? 0 then Raise ValueError else Ok (replicate (Z.to_nat n) 0%float).

End Py.

Import Py.

Notation "'do' x <- c1 ; c2" := (Py.bind c1 (fun x => c2))
  (at level 10, x name, c1 at level 100, c2 at level 200).

(** ** Timing Aligner *)

Module Align.

(** One column of the [stim_label] array: row 0 holds the condition
    label and row 2 the onset time of the event within its run (the
    other rows are not read by [label2TR]). *)
Record event : Type := Event { cond : float; onset : float }.

(** Body of the inner loop of [label2TR]. *)
Definition label2TR_body (stim_label : list event) (TR : float)
    (TRs_run events_run run i : Z) (stim_label_TR : list float)
  : result (list float) :=
  let time_idx := run * events_run + i in
  do ev <- getitem stim_label time_idx;
  let time := onset ev in
  do q <- int_np_div time TR;
  let TR_idx := q + run * (TRs_run - 1) in
  setitem stim_label_TR TR_idx (cond ev).

Definition label2TR (stim_label : list event) (num_runs : Z) (TR : float)
    (TRs_run : Z) : result (list float) :=
  let events := Z.of_nat (length stim_label) in
  do events_run <- int_truediv events num_runs;
  do stim_label_TR <- np_zeros (TRs_run * 3);
  for_ (range num_runs) (fun run stim_label_TR =>
    for_ (range events_run)
         (label2TR_body stim_label TR TRs_run events_run run)
         stim_label_TR)
    stim_label_TR.

(** Number of events [label2TR] reads: [events_run] from each of the
    [num_runs] runs, none when [range num_runs] is empty. *)
Definition events_run_of (stim_label : list event) (num_runs : Z) : Z :=
  Z.quot (Z.of_nat (length stim_label)) num_runs.

Definition events_read (stim_label : list event) (num_runs : Z) : Z :=
  if 0 <? num_runs then num_runs * events_run_of stim_label num_runs
  else 0.

(** Run to which [label2TR] attributes the event at input position [k]. *)
Definition run_of (stim_label : list event) (num_runs k : Z) : Z :=
  k / events_run_of stim_label num_runs.

(** The value of [TR_idx] for an event attributed to run [run]. *)
Definition TR_idx_of (TR : float) (TRs_run run : Z) (ev : event)
  : result Z :=
  do q <- int_np_div (onset ev) TR;
  Ok (q + run * (TRs_run - 1)).

(** Position that [TR_idx] denotes in a vector of [len] entries. *)
Definition event_slot (TR : float) (TRs_run run : Z) (len : nat)
    (ev : event) : result nat :=
  do TR_idx <- TR_idx_of TR TRs_run run ev;
  Py.index len TR_idx.

(** Handling of the event at input position [k], in input order: the
    inner-loop body at run [k / events_run], event [k mod events_run]. *)
Definition flat_body (stim_label : list event) (num_runs : Z) (TR : float)
    (TRs_run k : Z) : list float -> result (list float) :=
  let events_run := events_run_of stim_label num_runs in
  label2TR_body stim_label TR TRs_run events_run
                (k / events_run) (k mod events_run).

(** The event at input position [k] makes its step raise: [int]
    rejects the quotient of its onset by [TR], or its [TR_idx] is
    outside the index range of the output vector. *)
Definition bad_event (stim_label : list event) (num_runs : Z) (TR : float)
    (TRs_run k : Z) : Prop :=
  exists ev, stim_label !! Z.to_nat k = Some ev /\
    raises (event_slot TR TRs_run (run_of stim_label num_runs k)
                       (Z.to_nat (TRs_run * 3)) ev).

(** Position of the output vector at which the label of the event at
    input position [k] is written. *)
Definition slot_of (stim_label : list event) (num_runs : Z) (TR : float)
    (TRs_run k : Z) : result nat :=
  match stim_label !! Z.to_nat k with
  | Some ev =>
      event_slot TR TRs_run (run_of stim_label num_runs k)
                 (Z.to_nat (TRs_run * 3)) ev
  | None => Raise IndexError
  end.

(** Modelled from the spec: [shift_timing] is imported from the
    repository's [utils] module, which is not among the sources. The
    specification asks for a new vector of the same length in which the
    labels move [shift] slots later, the vacated slots hold 0, nothing
    wraps around and the entries pushed past the end are dropped: pad
    with [shift] zeros in front, keep the first [len] entries. *)
Definition shift_timing (label_TR : list float) (shift : nat)
  : list float :=
  take (length label_TR) (replicate shift 0%float ++ label_TR).

End Align.

Import Align.

(** ** Run-wise Decoder *)

Module Decoder.

(** [np.unique]: the distinct values, ascending. *)
Definition np_unique (l : list Z) : list Z :=
  merge_sort Z.le (remove_dups l).

(** [ind[mask]] for [ind = np.arange(len(mask))]. *)
Definition np_where (mask : list bool) : list nat :=
  filter (fun i => mask !! i = Some true) (seq 0 (length mask)).

(** [X[index]] for an array of row numbers. *)
Fixpoint take_rows {A} (X : list A) (index : list nat)
  : result (list A) :=
  match index with
  | [] => Ok []
  | i :: index' =>
      do x <- match X !! i with
              | Some x => Ok x
              | None => Raise IndexError
              end;
      do xs <- take_rows X index';
      Ok (x :: xs)
  end.

(** [X[mask, :]] for a boolean mask: the mask must have one entry per
    row. *)
Fixpoint mask_rows {A} (X : list A) (mask : list bool)
  : result (list A) :=
  match X, mask with
  | [], [] => Ok []
  | x :: X', b :: mask' =>
      do xs <- mask_rows X' mask';
      Ok (if b then x :: xs else xs)
  | _, _ => Raise IndexError
  end.

(** [sklearn.model_selection.PredefinedSplit], the scikit-learn class
    [decode] takes its folds from (a library, not part of the
    repository; modelled after its documented behaviour). [test_fold]
    holds the fold keys as integers (the constructor converts them with
    [dtype=int]); [unique_folds] is [np.unique(test_fold)] without the
    value [-1], which the library reserves for rows that are never
    tested; [split] yields, for each value of [unique_folds] in turn,
    the rows whose key differs from it (training rows) and the rows
    whose key equals it (test rows). *)
Record PredefinedSplit : Type :=
  { test_fold : list Z; unique_folds : list Z }.

Definition PredefinedSplit_init (test_fold : list Z) : PredefinedSplit :=
  {| test_fold := test_fold;
     unique_folds := filter (fun f => f <> -1) (np_unique test_fold) |}.

Definition test_mask (ps : PredefinedSplit) (f : Z) : list bool :=
  (fun v => bool_decide (v = f)) <$> test_fold ps.

Definition split (ps : PredefinedSplit) : list (list nat * list nat) :=
  (fun f => let m := test_mask ps f in
            (np_where (negb <$> m), np_where m)) <$> unique_folds ps.

(** The interface [decode] expects of [model]: [fit] updates the
    object's fitted state, [score] reads it. *)
Class Classifier (Row Label State : Type) : Type :=
  { fit : State -> list Row -> list Label -> result State;
    score : State -> list Row -> list Label -> result Q }.

(** Python objects live in a store; a variable holds a reference. A
    reference always denotes a live object, so the [ReferenceError] of
    [deref] stands for a store that does not hold [model]. *)
Definition ref : Type := nat.

Section decode.
Context {Row Label State : Type} `{!Classifier Row Label State}.

Definition deref (h : gmap ref State) (r : ref) : result State :=
  match h !! r with
  | Some st => Ok st
  | None => Raise ReferenceError
  end.

(** One iteration of the loop of [decode]: the loop state is the two
    result lists and the store. *)
Definition decode_body (X : list Row) (y : list Label) (model : ref)
    (fold : list nat * list nat)
    (acc : list ref * list Q * gmap ref State)
  : result (list ref * list Q * gmap ref State) :=
  let '(train_index, test_index) := fold in
  let '(models, scores, h) := acc in
  do X_train <- take_rows X train_index;
  do X_test <- take_rows X test_index;
  do y_train <- take_rows y train_index;
  do y_test <- take_rows y test_index;
  do st <- deref h model;
  do st' <- fit st X_train y_train;
  let h := <[model := st']> h in
  do score <- score st' X_test y_test;
  Ok (models ++ [model], scores ++ [score], h).

Definition decode (X : list Row) (y : list Label) (cv_ids : list Z)
    (model : ref) (h : gmap ref State)
  : result (list ref * list Q * gmap ref State) :=
  let ps := PredefinedSplit_init cv_ids in
  for_ (split ps) (decode_body X y model) ([], [], h).
End decode.

(** The [run_ids] argument of [normalize]: "np.array or a list", says
    the docstring. Run identifiers are taken to be integer-valued. *)
Inductive run_ids_arg : Type :=
| IdArray (ids : list Z)
| IdList (ids : list Z).

Section normalize.
Context {Row : Type}.
(** [vdc_n_runs] is a constant of the absent [utils] module (3 for
    the course data set); [fit_transform] is the [fit_transform] of the
    scaler, which refits from scratch on the rows it is given. *)
Variable vdc_n_runs : Z.
Variable fit_transform : list Row -> result (list Row).

(** The rows the scaler is given for run [r],
    [bold_data_[run_ids == r, :]]. On an array [run_ids == r] is an
    element-wise mask, which must have one entry per row. On a list it is
    the single value [False]: the selection is then an empty
    3-dimensional array, which [fit_transform] rejects with
    [ValueError]. *)
Definition rows_of_run (bold_data_ : list Row) (run_ids : run_ids_arg)
    (r : Z) : result (list Row) :=
  match run_ids with
  | IdArray ids =>
      mask_rows bold_data_ ((fun v => bool_decide (v = r)) <$> ids)
  | IdList _ => Raise ValueError
  end.

(** [np.vstack]: refuses an empty list of blocks. *)
Definition np_vstack (data : list (list Row)) : result (list Row) :=
  match data with
  | [] => Raise ValueError
  | _ => Ok (concat data)
  end.

Definition normalize (bold_data_ : list Row) (run_ids : run_ids_arg)
  : result (list Row) :=
  do data <- for_ (range vdc_n_runs) (fun r data =>
               do rows <- rows_of_run bold_data_ run_ids r;
               do z <- fit_transform rows;
               Ok (data ++ [z])) [];
  np_vstack data.
End normalize.

(** Position of row [j] among the rows of run [r]: the number of
    earlier rows with that run identifier. *)
Definition rank_in_run (run_ids : list Z) (r : Z) (j : nat) : nat :=
  length (filter (fun v => v = r) (take j run_ids)).

(** [block] is what the scaler returns on the rows of run [r]. *)
Definition block_of {Row} (fit_transform : list Row -> result (list Row))
    (bold_data_ : list Row) (run_ids : run_ids_arg) (r : Z)
    (block : list Row) : Prop :=
  exists rows, rows_of_run bold_data_ run_ids r = Ok rows /\
               fit_transform rows = Ok block.

(** scikit-learn's [StandardScaler] on a matrix of floats (a library,
    not part of the repository). [fit] keeps, for every feature, the
    mean and the scale (the standard deviation, a zero one replaced by
    1) of that feature's column; the two reductions are the library's
    numeric routines and stay parameters, [col_mean] and [col_scale].
    [transform] subtracts the mean from every entry and divides by the
    scale, in binary64 arithmetic. [fit] refuses a matrix without
    rows. *)
Section StandardScaler.
Variables col_mean col_scale : list float -> float.

Definition column (c : nat) (rows : list (list float)) : list float :=
  (fun row => default 0%float (row !! c)) <$> rows.

Definition StandardScaler_fit (rows : list (list float))
  : result (list float * list float) :=
  match rows with
  | [] => Raise ValueError
  | row :: _ =>
      let features := seq 0 (length row) in
      Ok ((fun c => col_mean (column c rows)) <$> features,
          (fun c => col_scale (column c rows)) <$> features)
  end.

Definition StandardScaler_transform (stats : list float * list float)
    (row : list float) : list float :=
  zip_with (fun x ms => ((x - ms.1) / ms.2)%float)
           row (zip stats.1 stats.2).

Definition StandardScaler_fit_transform (rows : list (list float))
  : result (list (list float)) :=
  do stats <- StandardScaler_fit rows;
  Ok (StandardScaler_transform stats <$> rows).
End StandardScaler.

End Decoder.

Import Decoder.

(** ** Concrete instances used in the worked examples *)

Module Examples.

(** Column mean and scale for the worked examples: sums taken from
    left to right, population variance, square root, a zero deviation
    replaced by 1. (The library may associate its sums differently; on
    the example data every intermediate value is a small integer, which
    any order computes exactly.) *)
Definition float_mean (col : list float) : float :=
  (foldl PrimFloat.add 0 col
   / foldl (fun n _ => n + 1) 0 col)%float.

Definition float_scale (col : list float) : float :=
  let mean := float_mean col in
  let var := float_mean ((fun x => (x - mean) * (x - mean))%float <$> col) in
  if (var =? 0)%float then 1%float else PrimFloat.sqrt var.

Definition scaler : list (list float) -> result (list (list float)) :=
  StandardScaler_fit_transform float_mean float_scale.

(** A classifier that memorises its training set: it predicts the label
    of the first training row equal to the test row, 0 otherwise, and
    scores the fraction of test rows predicted correctly. *)
Definition memo_predict (st : list (Z * Z)) (x : Z) : Z :=
  match filter (fun p => p.1 = x) st with
  | p :: _ => p.2
  | [] => 0
  end.

#[export] Instance memo : Classifier Z Z (list (Z * Z)) :=
  {| fit := fun _ X y => Ok (zip X y);
     score := fun st X y =>
       match X with
       | [] => Raise ValueError
       | _ =>
           let hits :=
             filter (fun p => memo_predict st p.1 = p.2) (zip X y) in
           Ok (Qred (Z.of_nat (length hits) # Pos.of_nat (length X)))
       end |}.

End Examples.

Import Examples.

(** ** The row selection of the example solutions *)

Module Notebook.

(** [labels != c] *)
Definition label_mask (labels : list Z) (c : Z) : list bool :=
  (fun l => bool_decide (l <> c)) <$> labels.

(** The three selections made before [decode] is called:
    [bold_normalized[labels != c, :]], [labels[labels != c]] and
    [run_ids[labels != c]] (condition labels taken to be
    integer-valued). *)
Definition remove_condition {Row} (c : Z) (bold_normalized : list Row)
    (labels run_ids : list Z) : result (list Row * list Z * list Z) :=
  do bold_normalized_so <- mask_rows bold_normalized (label_mask labels c);
  do labels_so <- mask_rows labels (label_mask labels c);
  do run_ids_so <- mask_rows run_ids (label_mask labels c);
  Ok (bold_normalized_so, labels_so, run_ids_so).

End Notebook.

Import Notebook.

(** * Properties *)

(** ** Loops in the exception monad *)

Section loops.
Context {A S : Type}.
Implicit Types (xs ys : list A) (body : A -> S -> result S) (s : S).

Lemma bind_Ok_inv {B C} (r : result B) (k : B -> result C) (c : C) :
  Py.bind r k = Ok c -> exists b, r = Ok b /\ k b = Ok c.
Proof. destruct r as [b|e]; simpl; [eauto | discriminate]. Qed.

Lemma for_app xs ys body s :
  for_ (xs ++ ys) body s = Py.bind (for_ xs body s) (for_ ys body).
Proof.
  revert s. induction xs as [|x xs IH]; intros s; simpl; [done|].
  destruct (body x s) as [s'|e]; simpl; [apply IH | done].
Qed.

Lemma for_ext xs body body' s :
  (forall x s, x ∈ xs -> body x s = body' x s) ->
  for_ xs body s = for_ xs body' s.
Proof.
  revert s. induction xs as [|x xs IH]; intros s Hext; simpl; [done|].
  rewrite <- Hext by left.
  destruct (body x s) as [s'|e]; simpl; [|done].
  apply IH. intros y t Hy. apply Hext. by right.
Qed.

Lemma for_fmap {B} (f : B -> A) (zs : list B) body s :
  for_ (f <$> zs) body s = for_ zs (fun z => body (f z)) s.
Proof.
  revert s. induction zs as [|z zs IH]; intros s; simpl; [done|].
  destruct (body (f z) s); simpl; [apply IH | done].
Qed.

(** A property kept by every iteration holds when the loop returns. *)
Lemma for_invariant (P : S -> Prop) xs body s s' :
  (forall x t t', x ∈ xs -> P t -> body x t = Ok t' -> P t') ->
  P s -> for_ xs body s = Ok s' -> P s'.
Proof.
  revert s. induction xs as [|x xs IH]; intros s Hstep Hs Hrun; simpl in *.
  - by inversion Hrun; subst.
  - apply bind_Ok_inv in Hrun as (t & Hx & Hrest).
    eapply IH; [|eapply Hstep; [left|done..]|done].
    intros y u u' Hy. apply Hstep. by right.
Qed.

(** When failure of an iteration does not depend on the loop state (as
    long as the invariant [P] holds), the loop raises exactly when some
    iteration does. *)
Lemma for_raises (P : S -> Prop) (bad : A -> Prop) xs body s :
  (forall x t t', x ∈ xs -> P t -> body x t = Ok t' -> P t') ->
  (forall x t, x ∈ xs -> P t -> raises (body x t) <-> bad x) ->
  P s ->
  raises (for_ xs body s) <-> exists x, x ∈ xs /\ bad x.
Proof.
  revert s. induction xs as [|x xs IH]; intros s Hstep Hbad Hs; simpl.
  - split; [intros []|]. intros (x & Hx & _). by apply elem_of_nil in Hx.
  - destruct (body x s) as [t|e] eqn:Hx; simpl.
    + rewrite IH; first last.
      * eapply Hstep; [left|done..].
      * intros y u Hy. apply Hbad. by right.
      * intros y u u' Hy. apply Hstep. by right.
      * split; intros (y & Hy & Hby).
        -- exists y. split; [by right|done].
        -- apply elem_of_cons in Hy as [->|Hy]; [|by eauto].
           apply (Hbad x s) in Hby; [|left|done]. by rewrite Hx in Hby.
    + split; [|done]. intros _. exists x. split; [left|].
      apply (Hbad x s); [left|done|]. by rewrite Hx.
Qed.
End loops.

(** The two nested loops of [label2TR] visit the events in input order:
    event [k] is handled as event [k mod er] of run [k / er]. *)
Lemma for_nested {St} (nr er : Z) (body : Z -> Z -> St -> result St) (s : St) :
  0 < er ->
  for_ (range nr) (fun run => for_ (range er) (body run)) s
  = for_ (range (Z.max 0 nr * er)) (fun k => body (k / er) (k mod er)) s.
Proof.
  intros Her. unfold range.
  destruct (Z.le_gt_cases nr 0) as [Hnr|Hnr].
  { rewrite (seqZ_nil _ nr) by done.
    rewrite (seqZ_nil _ (_ * _)); [done|]. rewrite Z.max_l by done. lia. }
  rewrite Z.max_r by lia.
  rewrite <- (Z2Nat.id nr) by lia. generalize (Z.to_nat nr) as n.
  clear Hnr nr. intros n. revert s.
  induction n as [|n IH]; intros s.
  { by rewrite !seqZ_nil by lia. }
  assert (Htail : forall t,
    for_ (seqZ (Z.of_nat n * er) er)
         (fun k => body (k / er) (k mod er)) t
    = for_ (seqZ 0 er) (body (Z.of_nat n)) t).
  { intros t.
    replace (seqZ (Z.of_nat n * er) er)
      with (Z.add (Z.of_nat n * er) <$> seqZ 0 er)
      by (rewrite fmap_add_seqZ; f_equal; lia).
    rewrite for_fmap. apply for_ext.
    intros i v Hi. apply elem_of_seqZ in Hi.
    rewrite Z.add_comm, Z.div_add, Z.mod_add by lia.
    rewrite Z.div_small, Z.mod_small by lia. done. }
  rewrite seqZ_S, for_app, IH.
  replace (Z.of_nat (S n) * er) with (Z.of_nat n * er + er) by lia.
  rewrite seqZ_app, for_app by lia.
  destruct (for_ (seqZ 0 (Z.of_nat n * er)) _ s) as [t|e]; simpl; [|done].
  rewrite !Z.add_0_l, Htail.
  by destruct (for_ (seqZ 0 er) (body (Z.of_nat n)) t).
Qed.

(** ** Python indexing *)

Lemma index_Ok (len : nat) (i : Z) (p : nat) :
  Py.index len i = Ok p <->
  (0 <= i < Z.of_nat len /\ p = Z.to_nat i) \/
  (- Z.of_nat len <= i < 0 /\ p = Z.to_nat (Z.of_nat len + i)).
Proof.
  unfold Py.index.
  destruct (Z.leb_spec 0 i), (Z.ltb_spec i (Z.of_nat len)),
    (Z.leb_spec (- Z.of_nat len) i), (Z.ltb_spec i 0); simpl;
    (split; [intros Hx; try discriminate; injection Hx as <-; lia
            |intros [[? ->]|[? ->]]; (done || lia)]).
Qed.

Lemma index_lt (len : nat) (i : Z) (p : nat) :
  Py.index len i = Ok p -> (p < len)%nat.
Proof. rewrite index_Ok. lia. Qed.

Lemma index_raises (len : nat) (i : Z) :
  raises (Py.index len i) <-> ~ (- Z.of_nat len <= i < Z.of_nat len).
Proof.
  unfold Py.index.
  destruct (Z.leb_spec 0 i), (Z.ltb_spec i (Z.of_nat len)),
    (Z.leb_spec (- Z.of_nat len) i), (Z.ltb_spec i 0); simpl; lia.
Qed.

Lemma getitem_nonneg {A} (l : list A) (i : Z) (x : A) :
  0 <= i -> l !! Z.to_nat i = Some x -> getitem l i = Ok x.
Proof.
  intros Hi Hx. unfold getitem.
  assert (Py.index (length l) i = Ok (Z.to_nat i)) as ->.
  { apply index_Ok. left. apply lookup_lt_Some in Hx. lia. }
  simpl. by rewrite Hx.
Qed.

Lemma setitem_Ok {A} (l l' : list A) (i : Z) (x : A) :
  setitem l i x = Ok l' <->
  exists p, Py.index (length l) i = Ok p /\ l' = <[p := x]> l.
Proof.
  unfold setitem. destruct (Py.index (length l) i) as [p|e]; simpl.
  - split; [intros [= <-]; eauto | intros (q & [= <-] & ->); done].
  - split; [done | intros (q & ? & _); done].
Qed.

Lemma event_slot_Ok TR TRs_run run (len : nat) ev (p : nat) :
  event_slot TR TRs_run run len ev = Ok p <->
  exists q, int_np_div (onset ev) TR = Ok q /\
            Py.index len (q + run * (TRs_run - 1)) = Ok p.
Proof.
  unfold event_slot, TR_idx_of.
  destruct (int_np_div (onset ev) TR) as [q|e]; simpl.
  - split; [eauto|]. by intros (q' & [= <-] & Hp).
  - split; [done|]. by intros (q' & [=] & _).
Qed.

Lemma event_slot_lt TR TRs_run run (len : nat) ev (p : nat) :
  event_slot TR TRs_run run len ev = Ok p -> (p < len)%nat.
Proof.
  intros Hp. apply event_slot_Ok in Hp as (q & _ & Hp).
  by eapply index_lt.
Qed.

(** ** The Timing Aligner, event by event *)

Section label2TR_facts.
Context (stim_label : list event) (num_runs : Z) (TR : float)
  (TRs_run : Z).

Local Abbreviation er := (events_run_of stim_label num_runs).
Local Abbreviation n_read := (events_read stim_label num_runs).
Local Abbreviation step := (flat_body stim_label num_runs TR TRs_run).
Local Abbreviation slot_at len k ev :=
  (event_slot TR TRs_run (run_of stim_label num_runs k) len ev).

Lemma events_run_nonneg : 0 < num_runs -> 0 <= er.
Proof. intros. unfold events_run_of. apply Z.quot_pos; lia. Qed.

Lemma events_read_le : 0 <= n_read <= Z.of_nat (length stim_label).
Proof.
  unfold events_read, events_run_of.
  destruct (Z.ltb_spec 0 num_runs); [|lia].
  rewrite Z.quot_div_nonneg by lia.
  split; [|apply Z.mul_div_le; lia].
  apply Z.mul_nonneg_nonneg; [lia|]. apply Z.div_pos; lia.
Qed.

Lemma events_read_pos k : 0 <= k < n_read -> 0 < num_runs /\ 0 < er.
Proof.
  unfold events_read. intros Hk.
  destruct (Z.ltb_spec 0 num_runs) as [Hn|]; [|lia].
  split; [done|]. pose proof (events_run_nonneg Hn). nia.
Qed.

Lemma event_read k :
  0 <= k < n_read -> exists ev, stim_label !! Z.to_nat k = Some ev.
Proof.
  intros Hk. pose proof events_read_le.
  apply lookup_lt_is_Some_2. lia.
Qed.

(** The step for event [k] reads column [k] and writes its label at
    the position Python assigns to [TR_idx]. *)
Lemma step_unfold k ev arr :
  0 <= k < n_read -> stim_label !! Z.to_nat k = Some ev ->
  step k arr =
    (do q <- int_np_div (onset ev) TR;
     setitem arr (q + run_of stim_label num_runs k * (TRs_run - 1))
             (cond ev)).
Proof.
  intros Hk Hev. destruct (events_read_pos _ Hk) as [_ Her].
  unfold flat_body, label2TR_body, run_of.
  replace (k / er * er + k mod er) with k
    by (rewrite (Z.div_mod k er) at 1; lia).
  by rewrite (getitem_nonneg _ _ _ (proj1 Hk) Hev).
Qed.

Lemma step_Ok k arr arr' :
  0 <= k < n_read -> step k arr = Ok arr' ->
  exists ev p,
    stim_label !! Z.to_nat k = Some ev /\
    slot_at (length arr) k ev = Ok p /\
    arr' = <[p := cond ev]> arr.
Proof.
  intros Hk Hrun. destruct (event_read _ Hk) as [ev Hev].
  rewrite (step_unfold _ _ _ Hk Hev) in Hrun.
  apply bind_Ok_inv in Hrun as (q & Hq & Hrun).
  apply setitem_Ok in Hrun as (p & Hp & ->).
  exists ev, p. split; [done|]. split; [|done].
  unfold event_slot, TR_idx_of. by rewrite Hq.
Qed.

Lemma step_length k arr arr' :
  0 <= k < n_read -> step k arr = Ok arr' -> length arr' = length arr.
Proof.
  intros Hk Hrun.
  destruct (step_Ok _ _ _ Hk Hrun) as (ev & p & _ & _ & ->).
  apply length_insert.
Qed.

Lemma step_raises k arr :
  0 <= k < n_read -> length arr = Z.to_nat (TRs_run * 3) ->
  raises (step k arr) <-> bad_event stim_label num_runs TR TRs_run k.
Proof.
  intros Hk Hlen. destruct (event_read _ Hk) as [ev Hev].
  rewrite (step_unfold _ _ _ Hk Hev). unfold bad_event.
  assert (Hsame : raises
      (do q <- int_np_div (onset ev) TR;
       setitem arr (q + run_of stim_label num_runs k * (TRs_run - 1))
               (cond ev))
    <-> raises (slot_at (Z.to_nat (TRs_run * 3)) k ev)).
  { unfold event_slot, TR_idx_of, setitem. rewrite Hlen.
    destruct (int_np_div (onset ev) TR) as [q|e]; simpl; [|done].
    by destruct (Py.index _ _). }
  rewrite Hsame. split; [by exists ev|].
  intros (ev' & Hev' & Hbad). by assert (ev' = ev) as -> by congruence.
Qed.

Lemma loop_length ks arr out :
  (forall k, k ∈ ks -> 0 <= k < n_read) ->
  for_ ks step arr = Ok out -> length out = length arr.
Proof.
  intros Hks. apply (for_invariant (fun t => length t = length arr)); [|done].
  intros k t t' Hk Ht Hrun. rewrite <- Ht. eapply step_length; eauto.
Qed.

(** Positions no event of [ks] writes keep their value. *)
Lemma loop_frame ks arr out (p : nat) :
  (forall k, k ∈ ks -> 0 <= k < n_read) ->
  (forall k ev, k ∈ ks -> stim_label !! Z.to_nat k = Some ev ->
     slot_at (length arr) k ev <> Ok p) ->
  for_ ks step arr = Ok out -> out !! p = arr !! p.
Proof.
  revert arr. induction ks as [|k ks IH]; intros arr Hks Hfree Hrun.
  - by injection Hrun as <-.
  - simpl in Hrun. apply bind_Ok_inv in Hrun as (arr' & Hk & Hrest).
    assert (Hkr : 0 <= k < n_read) by (apply Hks; left).
    destruct (step_Ok _ _ _ Hkr Hk) as (ev & q & Hev & Hq & ->).
    rewrite (IH (<[q := cond ev]> arr)); [| |
      rewrite length_insert|done].
    + apply list_lookup_insert_ne. intros ->.
      by apply (Hfree k ev); [left|..].
    + intros k' Hk'. apply Hks. by right.
    + intros k' ev' Hk'. apply Hfree. by right.
Qed.

(** Last write wins: the label of an event stays at its position when
    no later event is written there. *)
Lemma loop_last_write ks1 k ks2 arr out ev (p : nat) :
  (forall k', k' ∈ ks1 ++ k :: ks2 -> 0 <= k' < n_read) ->
  stim_label !! Z.to_nat k = Some ev ->
  slot_at (length arr) k ev = Ok p ->
  (forall k' ev', k' ∈ ks2 -> stim_label !! Z.to_nat k' = Some ev' ->
     slot_at (length arr) k' ev' <> Ok p) ->
  for_ (ks1 ++ k :: ks2) step arr = Ok out ->
  out !! p = Some (cond ev).
Proof.
  intros Hks Hev Hp Hlater Hrun.
  rewrite for_app in Hrun. apply bind_Ok_inv in Hrun as (a1 & H1 & Hrun).
  simpl in Hrun. apply bind_Ok_inv in Hrun as (a2 & Hk & H2).
  assert (Hl1 : length a1 = length arr).
  { eapply loop_length; [|done]. intros k' Hk'. apply Hks.
    apply elem_of_app. by left. }
  assert (Hkr : 0 <= k < n_read).
  { apply Hks. apply elem_of_app. right. left. }
  destruct (step_Ok _ _ _ Hkr Hk) as (ev' & q & Hev' & Hq & ->).
  assert (ev' = ev) as -> by congruence.
  rewrite Hl1, Hp in Hq. injection Hq as <-.
  rewrite (loop_frame ks2 (<[p := cond ev]> a1) out p);
    [| |rewrite length_insert, Hl1|done].
  - apply list_lookup_insert_eq. rewrite Hl1. by eapply event_slot_lt.
  - intros k' Hk'. apply Hks. apply elem_of_app. right. by right.
  - done.
Qed.

Lemma for_skip {A St} (xs : list A) (s : St) :
  for_ xs (fun _ t => Ok t) s = Ok s.
Proof. induction xs; simpl; done. Qed.

(** [label2TR] as a single loop over the events it reads. *)
Lemma label2TR_flat :
  label2TR stim_label num_runs TR TRs_run =
    (do _ <- int_truediv (Z.of_nat (length stim_label)) num_runs;
     do zeros <- np_zeros (TRs_run * 3);
     for_ (range n_read) step zeros).
Proof.
  unfold label2TR, int_truediv.
  destruct (Z.eqb_spec num_runs 0) as [|Hnr]; simpl; [done|].
  destruct (np_zeros (TRs_run * 3)) as [zeros|e]; simpl; [|done].
  fold er. unfold events_read.
  destruct (Z.ltb_spec 0 num_runs) as [Hpos|Hneg].
  - pose proof (events_run_nonneg Hpos) as Her.
    destruct (Z.eq_dec er 0) as [H0|H0].
    + rewrite H0, Z.mul_0_r. unfold range at 2 3.
      rewrite !seqZ_nil by lia. simpl. apply for_skip.
    + rewrite for_nested by lia. by rewrite Z.max_r by lia.
  - unfold range. by rewrite !seqZ_nil by lia.
Qed.

Lemma label2TR_length out :
  label2TR stim_label num_runs TR TRs_run = Ok out ->
  length out = Z.to_nat (TRs_run * 3).
Proof.
  rewrite label2TR_flat. intros Hrun.
  apply bind_Ok_inv in Hrun as (? & _ & Hrun).
  apply bind_Ok_inv in Hrun as (zeros & Hz & Hrun).
  unfold np_zeros in Hz. destruct (TRs_run * 3 <? 0); [done|].
  injection Hz as <-. apply loop_length in Hrun.
  - by rewrite Hrun, length_replicate.
  - intros k. unfold range. rewrite elem_of_seqZ. lia.
Qed.

Lemma label2TR_raises :
  raises (label2TR stim_label num_runs TR TRs_run) <->
  num_runs = 0 \/ TRs_run < 0 \/
  exists k, 0 <= k < n_read /\
            bad_event stim_label num_runs TR TRs_run k.
Proof.
  rewrite label2TR_flat. unfold int_truediv, np_zeros.
  destruct (Z.eqb_spec num_runs 0) as [|Hnr]; simpl; [tauto|].
  destruct (Z.ltb_spec (TRs_run * 3) 0) as [|HN]; simpl.
  { split; [intros _; right; left; lia | done]. }
  rewrite (for_raises
    (fun t => length t = Z.to_nat (TRs_run * 3))
    (bad_event stim_label num_runs TR TRs_run)).
  - unfold range. setoid_rewrite elem_of_seqZ.
    split; [intros (k & ? & ?); right; right; exists k; split; [lia|done]|].
    intros [?|[?|(k & ? & ?)]]; [lia..|]. exists k. split; [lia|done].
  - intros k t t' Hk Ht Hrun. rewrite <- Ht.
    eapply step_length; [|done]. apply elem_of_seqZ in Hk. lia.
  - intros k t Hk Ht. apply step_raises; [|done..].
    apply elem_of_seqZ in Hk. lia.
  - apply length_replicate.
Qed.

(** The entry at the position of event [k] after alignment, when no
    later event is written to the same position. *)
Lemma label2TR_last_write out k ev (p : nat) :
  label2TR stim_label num_runs TR TRs_run = Ok out ->
  0 <= k < n_read ->
  stim_label !! Z.to_nat k = Some ev ->
  slot_at (Z.to_nat (TRs_run * 3)) k ev = Ok p ->
  (forall k' ev', k < k' < n_read ->
     stim_label !! Z.to_nat k' = Some ev' ->
     slot_at (Z.to_nat (TRs_run * 3)) k' ev' <> Ok p) ->
  out !! p = Some (cond ev).
Proof.
  rewrite label2TR_flat. intros Hrun Hk Hev Hp Hlater.
  apply bind_Ok_inv in Hrun as (? & _ & Hrun).
  apply bind_Ok_inv in Hrun as (zeros & Hz & Hrun).
  unfold np_zeros in Hz. destruct (TRs_run * 3 <? 0); [done|].
  injection Hz as <-.
  assert (Hsplit : range n_read
    = seqZ 0 k ++ k :: seqZ (Z.succ k) (Z.pred (n_read - k))).
  { unfold range. replace n_read with (k + (n_read - k)) at 1 by lia.
    rewrite seqZ_app by lia. f_equal. rewrite Z.add_0_l.
    apply seqZ_cons. lia. }
  rewrite Hsplit in Hrun.
  eapply loop_last_write; [|done| | |done].
  - intros k'. rewrite <- Hsplit. unfold range.
    rewrite elem_of_seqZ. lia.
  - by rewrite length_replicate.
  - rewrite length_replicate. intros k' ev' Hk'. apply Hlater.
    apply elem_of_seqZ in Hk'. lia.
Qed.

(** A position no event is written to keeps the initial 0. *)
Lemma label2TR_untouched out (p : nat) :
  label2TR stim_label num_runs TR TRs_run = Ok out ->
  (p < Z.to_nat (TRs_run * 3))%nat ->
  (forall k ev, 0 <= k < n_read ->
     stim_label !! Z.to_nat k = Some ev ->
     slot_at (Z.to_nat (TRs_run * 3)) k ev <> Ok p) ->
  out !! p = Some 0%float.
Proof.
  rewrite label2TR_flat. intros Hrun Hp Hfree.
  apply bind_Ok_inv in Hrun as (? & _ & Hrun).
  apply bind_Ok_inv in Hrun as (zeros & Hz & Hrun).
  unfold np_zeros in Hz. destruct (TRs_run * 3 <? 0); [done|].
  injection Hz as <-.
  erewrite loop_frame; [by apply lookup_replicate_2| | |done].
  - intros k. unfold range. rewrite elem_of_seqZ. lia.
  - rewrite length_replicate. intros k ev Hk. apply Hfree.
    apply elem_of_seqZ in Hk. lia.
Qed.
End label2TR_facts.

(** A run that returns met no raising event. *)
Lemma label2TR_Ok_not_bad stim_label num_runs TR TRs_run out k :
  label2TR stim_label num_runs TR TRs_run = Ok out ->
  0 <= k < events_read stim_label num_runs ->
  ~ bad_event stim_label num_runs TR TRs_run k.
Proof.
  intros Hrun Hk Hbad.
  assert (Hr : raises (label2TR stim_label num_runs TR TRs_run)).
  { apply label2TR_raises. right. right. eauto. }
  by rewrite Hrun in Hr.
Qed.

Lemma not_raises_Ok {A} (r : result A) : ~ raises r -> exists a, r = Ok a.
Proof. destruct r as [a|e]; simpl; [eauto | tauto]. Qed.

(** Among the events read from position [k] on that are written to
    position [p], there is a last one. *)
Lemma last_writer_exists stim_label num_runs TR TRs_run (p : nat) k :
  0 <= k < events_read stim_label num_runs ->
  slot_of stim_label num_runs TR TRs_run k = Ok p ->
  exists m,
    k <= m < events_read stim_label num_runs /\
    slot_of stim_label num_runs TR TRs_run m = Ok p /\
    forall m', m < m' < events_read stim_label num_runs ->
      slot_of stim_label num_runs TR TRs_run m' <> Ok p.
Proof.
  set (n := events_read stim_label num_runs).
  set (slot := slot_of stim_label num_runs TR TRs_run).
  intros Hk Hp.
  assert (Hdec : forall m, slot m = Ok p \/ slot m <> Ok p).
  { intros m. destruct (slot m) as [q|e]; [|by right].
    destruct (decide (q = p)) as [->|]; [by left|right; congruence]. }
  assert (Hgen : forall d : nat, k + 1 + Z.of_nat d <= n ->
    exists m, k <= m < k + 1 + Z.of_nat d /\ slot m = Ok p /\
      forall m', m < m' < k + 1 + Z.of_nat d -> slot m' <> Ok p).
  { induction d as [|d IH]; intros Hd.
    - exists k. repeat split; [lia..|done|lia].
    - destruct IH as (m & Hm & Hsm & Hlast); [lia|].
      destruct (Hdec (k + 1 + Z.of_nat d)) as [Hhit|Hmiss].
      + exists (k + 1 + Z.of_nat d). repeat split; [lia..|done|lia].
      + exists m. repeat split; [lia..|done|].
        intros m' Hm'.
        destruct (decide (m' = k + 1 + Z.of_nat d)) as [->|]; [done|].
        apply Hlast. lia. }
  destruct (Hgen (Z.to_nat (n - k - 1))) as (m & Hm & Hsm & Hlast); [lia|].
  exists m. repeat split; [lia..|done|].
  intros m' Hm'. apply Hlast. lia.
Qed.

Lemma float_neq (x y : float) : Prim2SF x <> Prim2SF y -> x <> y.
Proof. congruence. Qed.

(** [int] rejects exactly the quotients that are not finite. *)
Lemma int_of_float_raises (x : float) :
  raises (int_of_float x) <->
  Prim2SF x = S754_nan \/ exists s, Prim2SF x = S754_infinity s.
Proof.
  unfold int_of_float. destruct (Prim2SF x) as [s|s| |s m e]; simpl.
  - split; [done|]. by intros [?|[? ?]].
  - split; [eauto|done].
  - split; [by left|done].
  - split; [done|]. by intros [?|[? ?]].
Qed.

(** An event raises when [int] rejects its quotient or when its
    [TR_idx] is no index of the vector. *)
Lemma event_slot_raises TR TRs_run run ev :
  0 <= TRs_run ->
  raises (event_slot TR TRs_run run (Z.to_nat (TRs_run * 3)) ev) <->
  raises (int_np_div (onset ev) TR) \/
  exists q, int_np_div (onset ev) TR = Ok q /\
            ~ (- (TRs_run * 3) <= q + run * (TRs_run - 1) < TRs_run * 3).
Proof.
  intros HN. unfold event_slot, TR_idx_of.
  destruct (int_np_div (onset ev) TR) as [q|e]; simpl.
  - rewrite index_raises, Z2Nat.id by lia. split.
    + intros Hout. right. by exists q.
    + intros [[]|(q' & [= <-] & Hout)]. done.
  - split; [by left|done].
Qed.

(** ** Claims about the Timing Aligner *)

(** C1. The specification places the label of an event with onset [t] in
    run [r] at index [r * TRs_per_run + floor (t / TR_seconds)]. The code
    offsets run [r] by [r * (TRs_run - 1)] instead: with 4 TRs per run of
    1.5 s, the event of run 1 at onset 0 lands at index 3 (the last slot
    of run 0) and index 4 stays 0; the event of run 2 at onset
    [(4 - 1) * 1.5] lands at index 9 and index 11 stays 0. *)
Theorem label2TR_run_offset_short_by_one :
  exists out,
    label2TR [Event 1 0; Event 2 0; Event 3 4.5] 3 1.5 4 = Ok out /\
    out !! Z.to_nat (1 * 4 + Qfloor (0 / (3 # 2))) = Some 0%float /\
    out !! Z.to_nat (1 * (4 - 1) + Qfloor (0 / (3 # 2))) = Some 2%float /\
    out !! Z.to_nat (2 * 4 + Qfloor ((9 # 2) / (3 # 2))) = Some 0%float /\
    out !! Z.to_nat (2 * (4 - 1) + Qfloor ((9 # 2) / (3 # 2)))
      = Some 3%float.
Proof.
  exists [1; 0; 0; 2; 0; 0; 0; 0; 0; 3; 0; 0]%float.
  repeat split; reflexivity.
Qed.

(** C2. The specification gives the TR Label Vector the length
    [num_runs * TRs_per_run]. The code allocates [TRs_run * 3] entries
    whatever [num_runs] is: with no event, 2 runs and 4 TRs per run it
    returns 12 zeros, not 8. *)
Theorem label2TR_length_ignores_num_runs :
  label2TR [] 2 1.5 4 = Ok (replicate 12 0%float) /\
  length (replicate 12 0%float) <> Z.to_nat (2 * 4).
Proof. split; [reflexivity | vm_compute; lia]. Qed.

(** C4 (as stated) fails: an event of run 0 whose index within the run
    is 4, beyond [TRs_per_run - 1 = 3], is written without any error at
    absolute index 4, inside the slice of run 1; a negative [TR] is
    accepted; and [TRs_per_run = 0] is accepted when no event is read. *)
Lemma label2TR_accepts_out_of_run_index :
  int_np_div 6 1.5 = Ok 4 /\
  label2TR [Event 1 6; Event 2 0; Event 3 0] 3 1.5 4
    = Ok [0; 0; 0; 2; 1; 0; 3; 0; 0; 0; 0; 0]%float /\
  label2TR [Event 1 0] 1 (-1.5) 4
    = Ok (<[0%nat := 1%float]> (replicate 12 0%float)) /\
  label2TR [] 3 1.5 0 = Ok [].
Proof. repeat split; reflexivity. Qed.

(** C4 (amended). [label2TR] validates none of its arguments; it raises
    exactly when [num_runs] is zero, or [TRs_run] is negative, or one of
    the events it reads has a quotient [time / TR] that [int] rejects
    (not a number, or infinite: a zero [TR], an onset that is not
    finite, an overflow) or an absolute index outside the index range
    of the allocated vector (negative indices down to minus its length
    included). *)
Theorem label2TR_raises_iff stim_label num_runs TR TRs_run :
  raises (label2TR stim_label num_runs TR TRs_run) <->
  num_runs = 0 \/ TRs_run < 0 \/
  exists k ev,
    0 <= k < events_read stim_label num_runs /\
    stim_label !! Z.to_nat k = Some ev /\
    (raises (int_np_div (onset ev) TR) \/
     exists q,
       int_np_div (onset ev) TR = Ok q /\
       ~ (- (TRs_run * 3)
          <= q + run_of stim_label num_runs k * (TRs_run - 1)
          < TRs_run * 3)).
Proof.
  rewrite label2TR_raises. unfold bad_event.
  destruct (Z.lt_ge_cases TRs_run 0) as [HN|HN]; [tauto|].
  split; (intros [?|[?|Hk]]; [by left|by right; left|right; right]).
  - destruct Hk as (k & Hk & ev & Hev & Hbad). exists k, ev.
    split; [done|]. split; [done|]. apply event_slot_raises; [lia|done].
  - destruct Hk as (k & ev & Hk & Hev & Hbad). exists k. split; [done|].
    exists ev. split; [done|]. apply event_slot_raises; [lia|done].
Qed.

(** The onset and [TR] of the example are the binary64 numbers nearest
    to 0.9 and 0.1: their rounded quotient is 9, an index the vector of
    [3 * 3] entries does not have. *)
Lemma label2TR_raises_iff_witness :
  raises (label2TR [Event 1 0x1.ccccccccccccdp-1] 1 0x1.999999999999ap-4 3).
Proof.
  apply (proj2 (label2TR_raises_iff
                  [Event 1 0x1.ccccccccccccdp-1] 1 0x1.999999999999ap-4 3)).
  right. right. exists 0, (Event 1 0x1.ccccccccccccdp-1).
  split; [vm_compute; split; [discriminate|reflexivity]|].
  split; [reflexivity|]. right. exists 9. split; [reflexivity|].
  vm_compute. intros [_ H]. discriminate H.
Defined.

(** C7 (as stated) fails for a pair of colliding events that a third
    event follows to the same index: the events at input positions 0
    and 1 both map to index 0, yet the entry is 3, the label of the
    event at position 2, not the label 2 of the later event of the
    pair. *)
Lemma label2TR_pair_overwritten_by_third :
  slot_of [Event 1 0; Event 2 1; Event 3 0.5; Event 1 3] 1 1.5 4 0
    = Ok 0%nat /\
  slot_of [Event 1 0; Event 2 1; Event 3 0.5; Event 1 3] 1 1.5 4 1
    = Ok 0%nat /\
  label2TR [Event 1 0; Event 2 1; Event 3 0.5; Event 1 3] 1 1.5 4
    = Ok [3; 0; 1; 0; 0; 0; 0; 0; 0; 0; 0; 0]%float /\
  [3; 0; 1; 0; 0; 0; 0; 0; 0; 0; 0; 0]%float !! 0%nat <> Some 2%float.
Proof.
  split; [reflexivity|]. split; [reflexivity|]. split; [reflexivity|].
  simpl. intros H. apply (f_equal (default 0%float)) in H. simpl in H.
  revert H. apply float_neq. vm_compute. discriminate.
Qed.

(** C7 (amended). Collisions are resolved by last write: when the events
    at input positions [j < k] are both written to position [p], the
    entry at [p] after alignment is the label of the last event in input
    order that is written there, an event at position [k] or later,
    never the earlier event [j]; it is the label of event [k] itself
    when no event after [k] is written to [p]. *)
Theorem label2TR_collision_last_write
    stim_label num_runs TR TRs_run out j k (p : nat) :
  label2TR stim_label num_runs TR TRs_run = Ok out ->
  0 <= j < k -> k < events_read stim_label num_runs ->
  slot_of stim_label num_runs TR TRs_run j = Ok p ->
  slot_of stim_label num_runs TR TRs_run k = Ok p ->
  (exists m ev,
     k <= m < events_read stim_label num_runs /\
     stim_label !! Z.to_nat m = Some ev /\
     slot_of stim_label num_runs TR TRs_run m = Ok p /\
     (forall m', m < m' < events_read stim_label num_runs ->
        slot_of stim_label num_runs TR TRs_run m' <> Ok p) /\
     out !! p = Some (cond ev)) /\
  ((forall m', k < m' < events_read stim_label num_runs ->
      slot_of stim_label num_runs TR TRs_run m' <> Ok p) ->
   out !! p = cond <$> stim_label !! Z.to_nat k).
Proof.
  intros Hrun Hjk Hk Hj Hp.
  assert (Hwin : forall m, 0 <= m < events_read stim_label num_runs ->
    slot_of stim_label num_runs TR TRs_run m = Ok p ->
    (forall m', m < m' < events_read stim_label num_runs ->
       slot_of stim_label num_runs TR TRs_run m' <> Ok p) ->
    exists ev, stim_label !! Z.to_nat m = Some ev /\
               out !! p = Some (cond ev)).
  { intros m Hm Hsm Hlast. unfold slot_of in Hsm.
    destruct (stim_label !! Z.to_nat m) as [ev|] eqn:Hev; [|done].
    exists ev. split; [done|].
    eapply label2TR_last_write; [done..|].
    intros m' ev' Hm' Hev' Hhit. apply (Hlast m' Hm').
    unfold slot_of. by rewrite Hev'. }
  split.
  - destruct (last_writer_exists stim_label num_runs TR TRs_run p k)
      as (m & Hm & Hsm & Hlast); [lia|done|].
    destruct (Hwin m) as (ev & Hev & Hout); [lia|done..|].
    by exists m, ev.
  - intros Hlast. destruct (Hwin k) as (ev & Hev & Hout); [lia|done..|].
    by rewrite Hev.
Qed.

Lemma label2TR_collision_last_write_witness :
  label2TR [Event 1 0; Event 2 1; Event 3 0.5; Event 1 3] 1 1.5 4
    = Ok [3; 0; 1; 0; 0; 0; 0; 0; 0; 0; 0; 0]%float /\
  [3; 0; 1; 0; 0; 0; 0; 0; 0; 0; 0; 0]%float !! 0%nat = Some 3%float.
Proof.
  split; [reflexivity|].
  destruct (label2TR_collision_last_write
    [Event 1 0; Event 2 1; Event 3 0.5; Event 1 3] 1 1.5 4
    [3; 0; 1; 0; 0; 0; 0; 0; 0; 0; 0; 0]%float 0 2 0%nat)
    as [_ Hlast];
    [reflexivity | lia | reflexivity | reflexivity | reflexivity |].
  apply Hlast. intros m' Hm'.
  assert (Hn : events_read
    [Event 1 0; Event 2 1; Event 3 0.5; Event 1 3] 1 = 4) by reflexivity.
  rewrite Hn in Hm'. assert (m' = 3) as -> by lia.
  vm_compute. discriminate.
Defined.

(** C9. Only the first [num_runs * floor (events / num_runs)] events are
    read: two inputs with the same number of events that agree on these
    give the same result, whatever their trailing events are. *)
Theorem label2TR_ignores_trailing_events
    stim_label stim_label' num_runs TR TRs_run :
  length stim_label = length stim_label' ->
  take (Z.to_nat (num_runs * (Z.of_nat (length stim_label) / num_runs)))
       stim_label
  = take (Z.to_nat (num_runs * (Z.of_nat (length stim_label) / num_runs)))
         stim_label' ->
  label2TR stim_label num_runs TR TRs_run
  = label2TR stim_label' num_runs TR TRs_run.
Proof.
  intros Hlen Htake. rewrite !label2TR_flat, <- Hlen.
  destruct (int_truediv _ num_runs) as [er|e]; simpl; [|done].
  destruct (np_zeros (TRs_run * 3)) as [zeros|e]; simpl; [|done].
  assert (Hn : events_read stim_label' num_runs
               = events_read stim_label num_runs).
  { unfold events_read, events_run_of. by rewrite Hlen. }
  rewrite Hn. apply for_ext. intros k arr Hk.
  unfold range in Hk. apply elem_of_seqZ in Hk.
  assert (Hk1 : 0 <= k < events_read stim_label num_runs) by lia.
  assert (Hk2 : 0 <= k < events_read stim_label' num_runs) by lia.
  destruct (event_read _ _ _ Hk1) as [ev Hev].
  assert (Hev' : stim_label' !! Z.to_nat k = Some ev).
  { destruct (events_read_pos _ _ _ Hk1) as [Hnr _].
    assert (Hlt : (Z.to_nat k
      < Z.to_nat (num_runs * (Z.of_nat (length stim_label) / num_runs)))%nat).
    { revert Hk1. unfold events_read, events_run_of.
      destruct (Z.ltb_spec 0 num_runs); [|lia].
      rewrite Z.quot_div_nonneg by lia. lia. }
    rewrite <- (lookup_take_lt stim_label' _ _ Hlt), <- Htake.
    by rewrite lookup_take_lt. }
  rewrite (step_unfold _ _ TR TRs_run _ _ arr Hk1 Hev).
  rewrite (step_unfold _ _ TR TRs_run _ _ arr Hk2 Hev').
  unfold run_of, events_run_of. by rewrite Hlen.
Qed.

Lemma label2TR_ignores_trailing_events_witness :
  label2TR [Event 1 0; Event 2 3; Event 3 0; Event 2 4.5; Event 3 6]
           2 1.5 4
  = label2TR [Event 1 0; Event 2 3; Event 3 0; Event 2 4.5; Event 1 0]
             2 1.5 4.
Proof.
  apply label2TR_ignores_trailing_events; reflexivity.
Defined.

(** C10. No bounds check guards the write: an event whose [TR_idx] is
    negative (but not below minus the length of the vector) does not
    raise; provided no other event raises, [label2TR] returns and the
    label sits at the position counted from the end of the vector,
    unless a later event is written there. *)
Theorem label2TR_negative_index_wraps
    stim_label num_runs TR TRs_run k ev TR_idx :
  0 <= k < events_read stim_label num_runs ->
  stim_label !! Z.to_nat k = Some ev ->
  TR_idx_of TR TRs_run (run_of stim_label num_runs k) ev = Ok TR_idx ->
  - (TRs_run * 3) <= TR_idx < 0 ->
  (forall k', 0 <= k' < events_read stim_label num_runs -> k' <> k ->
     ~ bad_event stim_label num_runs TR TRs_run k') ->
  (forall k', k < k' < events_read stim_label num_runs ->
     slot_of stim_label num_runs TR TRs_run k'
     <> Ok (Z.to_nat (TRs_run * 3 + TR_idx))) ->
  exists out,
    label2TR stim_label num_runs TR TRs_run = Ok out /\
    out !! Z.to_nat (TRs_run * 3 + TR_idx) = Some (cond ev).
Proof.
  intros Hk Hev Hidx Hneg Hothers Hlater.
  assert (Hslot : event_slot TR TRs_run (run_of stim_label num_runs k)
                    (Z.to_nat (TRs_run * 3)) ev
                  = Ok (Z.to_nat (TRs_run * 3 + TR_idx))).
  { unfold event_slot. rewrite Hidx. simpl.
    apply index_Ok. right. split; [lia|]. f_equal. lia. }
  destruct (not_raises_Ok (label2TR stim_label num_runs TR TRs_run))
    as [out Hrun].
  { rewrite label2TR_raises. intros [Hnr|[HN|(k' & Hk' & Hbad)]].
    - destruct (events_read_pos _ _ _ Hk). lia.
    - lia.
    - destruct (decide (k' = k)) as [->|Hne]; [|by eapply Hothers].
      destruct Hbad as (ev' & Hev' & Hbad).
      assert (ev' = ev) as -> by congruence.
      by rewrite Hslot in Hbad. }
  exists out. split; [done|].
  eapply label2TR_last_write; [done..|].
  intros k' ev' Hk' Hev' Hhit. apply (Hlater k' Hk').
  unfold slot_of. by rewrite Hev'.
Qed.

Lemma label2TR_negative_index_wraps_witness :
  TR_idx_of 1.5 4 0 (Event 7 (-3)) = Ok (-2) /\
  exists out,
    label2TR [Event 7 (-3)] 1 1.5 4 = Ok out /\
    out !! 10%nat = Some 7%float.
Proof.
  split; [reflexivity|].
  apply (label2TR_negative_index_wraps [Event 7 (-3)] 1 1.5 4 0
           (Event 7 (-3)) (-2)).
  - vm_compute. split; [discriminate|reflexivity].
  - reflexivity.
  - reflexivity.
  - vm_compute. split; [discriminate|reflexivity].
  - intros k' Hk' Hne.
    assert (Hn : events_read [Event 7 (-3)] 1 = 1) by reflexivity.
    rewrite Hn in Hk'. lia.
  - intros k' Hk'.
    assert (Hn : events_read [Event 7 (-3)] 1 = 1) by reflexivity.
    rewrite Hn in Hk'. lia.
Defined.

(** C8. Time shift: the result has the length of the input, entry [i] is
    entry [i - k] of the input from [k] on and 0 before, and shifting by
    0 changes nothing. No entry wraps around: the entries of the input
    from [length v - k] on occur nowhere in the result. *)
Theorem shift_timing_spec (v : list float) (k : nat) :
  length (shift_timing v k) = length v /\
  (forall i, (k <= i)%nat -> (i < length v)%nat ->
     shift_timing v k !! i = v !! (i - k)%nat) /\
  (forall i, (i < k)%nat -> (i < length v)%nat ->
     shift_timing v k !! i = Some 0%float) /\
  shift_timing v 0 = v.
Proof.
  unfold shift_timing. repeat split.
  - rewrite length_take, length_app, length_replicate. lia.
  - intros i Hk Hi. rewrite lookup_take_lt by done.
    rewrite lookup_app_r; rewrite length_replicate; done.
  - intros i Hk Hi. rewrite lookup_take_lt by done.
    rewrite lookup_app_l by (by rewrite length_replicate).
    by apply lookup_replicate_2.
  - simpl. by apply take_ge.
Qed.

Lemma shift_timing_spec_witness :
  shift_timing [1; 2; 3; 4; 5; 6]%float 2 = [0; 0; 1; 2; 3; 4]%float /\
  shift_timing [1; 2; 3; 4; 5; 6]%float 2 !! 3%nat
    = [1; 2; 3; 4; 5; 6]%float !! 1%nat /\
  shift_timing [1; 2; 3; 4; 5; 6]%float 2 !! 1%nat = Some 0%float.
Proof.
  split; [reflexivity|].
  destruct (shift_timing_spec [1; 2; 3; 4; 5; 6]%float 2)
    as (_ & Hshift & Hzero & _).
  split; [apply (Hshift 3%nat) | apply (Hzero 1%nat)]; simpl; lia.
Defined.

(** ** Folds of the predefined split *)

Lemma elem_of_np_where (mask : list bool) (i : nat) :
  i ∈ np_where mask <-> mask !! i = Some true.
Proof.
  unfold np_where. rewrite list_elem_of_filter, elem_of_seq.
  split; [tauto|]. intros Hi. split; [done|].
  apply lookup_lt_Some in Hi. lia.
Qed.

Lemma NoDup_np_where (mask : list bool) : NoDup (np_where mask).
Proof. apply NoDup_filter, NoDup_seq. Qed.

Lemma elem_of_test_rows ps f (i : nat) :
  i ∈ np_where (test_mask ps f) <-> test_fold ps !! i = Some f.
Proof.
  rewrite elem_of_np_where. unfold test_mask. rewrite list_lookup_fmap.
  destruct (test_fold ps !! i) as [v|]; simpl; [|split; done].
  case_bool_decide; split; intros [=]; congruence.
Qed.

Lemma elem_of_train_rows ps f (i : nat) :
  i ∈ np_where (negb <$> test_mask ps f) <->
  exists v, test_fold ps !! i = Some v /\ v <> f.
Proof.
  rewrite elem_of_np_where. unfold test_mask.
  rewrite !list_lookup_fmap.
  destruct (test_fold ps !! i) as [v|]; simpl.
  - case_bool_decide; simpl; split.
    + intros [=].
    + intros (w & [= <-] & Hne). done.
    + intros _. eauto.
    + done.
  - split; [done|]. by intros (w & [=] & _).
Qed.

Lemma elem_of_np_unique (l : list Z) (x : Z) : x ∈ np_unique l <-> x ∈ l.
Proof.
  unfold np_unique. rewrite merge_sort_Permutation.
  apply elem_of_remove_dups.
Qed.

Lemma NoDup_np_unique (l : list Z) : NoDup (np_unique l).
Proof.
  unfold np_unique. rewrite merge_sort_Permutation.
  apply NoDup_remove_dups.
Qed.

Lemma Sorted_np_unique (l : list Z) : Sorted Z.le (np_unique l).
Proof. apply Sorted_merge_sort. intros x y. lia. Qed.

Lemma elem_of_unique_folds cv_ids (f : Z) :
  f ∈ unique_folds (PredefinedSplit_init cv_ids) <-> f ∈ cv_ids /\ f <> -1.
Proof.
  simpl. rewrite list_elem_of_filter, elem_of_np_unique. tauto.
Qed.

Lemma NoDup_unique_folds cv_ids :
  NoDup (unique_folds (PredefinedSplit_init cv_ids)).
Proof. simpl. apply NoDup_filter, NoDup_np_unique. Qed.

Lemma split_lookup ps (n : nat) train test :
  split ps !! n = Some (train, test) <->
  exists f, unique_folds ps !! n = Some f /\
            train = np_where (negb <$> test_mask ps f) /\
            test = np_where (test_mask ps f).
Proof.
  unfold split. rewrite list_lookup_fmap.
  destruct (unique_folds ps !! n) as [f|]; simpl.
  - split; [intros [= <- <-]; eauto | intros (g & [= <-] & -> & ->); done].
  - split; [done | by intros (g & [=] & _)].
Qed.

Lemma StronglySorted_filter_le (P : Z -> Prop) `{!forall x, Decision (P x)}
    (l : list Z) :
  StronglySorted Z.le l -> StronglySorted Z.le (filter P l).
Proof.
  induction 1 as [|x l Hl IH Hx]; [constructor|].
  rewrite filter_cons. destruct (decide (P x)); [|done].
  constructor; [done|]. apply Forall_forall. intros y Hy.
  apply list_elem_of_filter in Hy as [_ Hy].
  rewrite Forall_forall in Hx. by apply Hx.
Qed.

(** The folds [decode] iterates over are those of the predefined split,
    one per distinct fold value other than [-1], in ascending order. *)
Lemma split_folds_ascending cv_ids :
  Sorted Z.le (unique_folds (PredefinedSplit_init cv_ids)) /\
  length (split (PredefinedSplit_init cv_ids))
  = length (unique_folds (PredefinedSplit_init cv_ids)).
Proof.
  split; [|unfold split; apply length_fmap].
  simpl. apply StronglySorted_Sorted, StronglySorted_filter_le.
  apply Sorted_StronglySorted; [intros x y z; lia|].
  apply Sorted_np_unique.
Qed.

(** C6 (as stated) fails: a row whose fold key is [-1] is in no test
    set, so the test sets do not cover the rows. *)
Lemma split_leaves_row_untested :
  split (PredefinedSplit_init [-1; 0]) = [([0%nat], [1%nat])] /\
  (0 < length [-1; 0]%Z)%nat /\
  forall fold, fold ∈ split (PredefinedSplit_init [-1; 0]) ->
               0%nat ∉ fold.2.
Proof.
  split; [reflexivity|]. split; [simpl; lia|].
  intros fold Hfold.
  assert (Hs : split (PredefinedSplit_init [-1; 0]) = [([0%nat], [1%nat])])
    by reflexivity.
  rewrite Hs in Hfold. apply list_elem_of_singleton in Hfold as ->.
  simpl. intros Hin. apply list_elem_of_singleton in Hin. discriminate.
Qed.

(** C6 (amended). In every fold no row is both a training and a test
    row, and test rows are rows of the data, each listed once; when no
    fold key is [-1], every row is a test row of exactly one fold. *)
Theorem split_partition (cv_ids : list Z) :
  (forall n train test (i : nat),
     split (PredefinedSplit_init cv_ids) !! n = Some (train, test) ->
     ~ (i ∈ train /\ i ∈ test)) /\
  (forall n train test,
     split (PredefinedSplit_init cv_ids) !! n = Some (train, test) ->
     NoDup test /\ forall i : nat, i ∈ test -> (i < length cv_ids)%nat) /\
  (-1 ∉ cv_ids ->
   forall i : nat, (i < length cv_ids)%nat ->
     exists n train test,
       split (PredefinedSplit_init cv_ids) !! n = Some (train, test) /\
       i ∈ test /\
       forall n' train' test',
         split (PredefinedSplit_init cv_ids) !! n' = Some (train', test') ->
         i ∈ test' -> n' = n).
Proof.
  split; [|split].
  - intros n train test i Hn [Htrain Htest].
    apply split_lookup in Hn as (f & _ & -> & ->).
    apply elem_of_train_rows in Htrain as (v & Hv & Hne).
    apply elem_of_test_rows in Htest. congruence.
  - intros n train test Hn.
    apply split_lookup in Hn as (f & _ & _ & ->).
    split; [apply NoDup_np_where|].
    intros i Hi. apply elem_of_test_rows in Hi.
    by apply lookup_lt_Some in Hi.
  - intros Hno i Hi.
    destruct (lookup_lt_is_Some_2 cv_ids i Hi) as [f Hf].
    assert (Hin : f ∈ unique_folds (PredefinedSplit_init cv_ids)).
    { apply elem_of_unique_folds. split.
      - by eapply list_elem_of_lookup_2.
      - intros ->. apply Hno. by eapply list_elem_of_lookup_2. }
    apply list_elem_of_lookup_1 in Hin as [n Hn].
    exists n, (np_where (negb <$> test_mask (PredefinedSplit_init cv_ids) f)),
      (np_where (test_mask (PredefinedSplit_init cv_ids) f)).
    split; [apply split_lookup; eauto|].
    split; [by apply elem_of_test_rows|].
    intros n' train' test' Hn' Hi'.
    apply split_lookup in Hn' as (g & Hg & _ & ->).
    apply elem_of_test_rows in Hi'. simpl in Hi'.
    assert (g = f) as -> by congruence.
    eapply NoDup_lookup; [apply NoDup_unique_folds|done..].
Qed.

Lemma split_partition_witness :
  split (PredefinedSplit_init [1; 0; 1; 2])
    = [([0; 2; 3], [1]); ([1; 3], [0; 2]); ([0; 1; 2], [3])]%nat /\
  exists n train test,
    split (PredefinedSplit_init [1; 0; 1; 2]) !! n = Some (train, test) /\
    2%nat ∈ test.
Proof.
  split; [reflexivity|].
  destruct (split_partition [1; 0; 1; 2]) as (_ & _ & Hcover).
  destruct (Hcover) with (i := 2%nat) as (n & train & test & Hn & Hi & _).
  - intros Hin.
    repeat (apply elem_of_cons in Hin as [Hin|Hin]; [discriminate Hin|]).
    by apply elem_of_nil in Hin.
  - simpl. lia.
  - by exists n, train, test.
Defined.

(** ** The classifiers returned by [decode] *)

Section decode_facts.
Context {Row Label State : Type} `{!Classifier Row Label State}.

Lemma decode_body_models (X : list Row) (y : list Label) (model : ref)
    fold models scores (h : gmap ref State) models' scores' h' :
  decode_body X y model fold (models, scores, h)
    = Ok (models', scores', h') ->
  models' = models ++ [model] /\
  length scores' = S (length scores).
Proof.
  unfold decode_body. destruct fold as [train_index test_index].
  intros Hrun.
  repeat (apply bind_Ok_inv in Hrun as (? & _ & Hrun)).
  injection Hrun as <- <- <-. by rewrite length_app, Nat.add_1_r.
Qed.

(** Every entry of the returned list of classifiers is the reference
    [model] that was passed in: one object, however many folds. *)
Lemma decode_models_alias (X : list Row) (y : list Label) cv_ids
    (model : ref) (h : gmap ref State) models scores h' :
  decode X y cv_ids model h = Ok (models, scores, h') ->
  models = replicate (length (split (PredefinedSplit_init cv_ids))) model /\
  length scores = length (split (PredefinedSplit_init cv_ids)).
Proof.
  unfold decode. generalize (split (PredefinedSplit_init cv_ids)).
  intros folds.
  assert (Hgen : forall (ms : list ref) (ss : list Q) (h0 : gmap ref State),
    for_ folds (decode_body X y model) (ms, ss, h0)
      = Ok (models, scores, h') ->
    models = ms ++ replicate (length folds) model /\
    length scores = (length ss + length folds)%nat).
  { induction folds as [|fold folds IH]; intros ms ss h0 Hrun.
    - injection Hrun as <- <- <-. simpl. by rewrite app_nil_r, Nat.add_0_r.
    - simpl in Hrun.
      apply bind_Ok_inv in Hrun as ([[ms1 ss1] h1] & Hstep & Hrest).
      apply decode_body_models in Hstep as [-> Hss].
      apply IH in Hrest as [-> ->]. simpl.
      rewrite <- app_assoc. split; [done|lia]. }
  intros Hrun. apply Hgen in Hrun as [-> ->]. done.
Qed.
End decode_facts.

(** C3. The specification wants the i-th returned classifier to be an
    instance of its own, fitted on the training rows of fold i. The code
    appends the one object [model] at every fold and refits it in place:
    with two folds the returned list holds the same reference twice, and
    the object it denotes carries the fit on the training rows of the
    last fold (rows 0 and 1), not the fit on those of fold 0 (rows 2 and
    3). *)
Theorem decode_returns_one_shared_classifier :
  exists h,
    decode [10; 20; 10; 21] [1; 2; 1; 2] [0; 0; 1; 1] 0%nat
           {[ 0%nat := [] ]}
      = Ok ([0; 0]%nat, [1 # 2; 1 # 2]%Q, h) /\
    h !! 0%nat = Some [(10, 1); (20, 2)] /\
    split (PredefinedSplit_init [0; 0; 1; 1])
      = [([2; 3], [0; 1]); ([0; 1], [2; 3])]%nat /\
    fit (State := list (Z * Z)) [] [10; 21] [1; 2] = Ok [(10, 1); (21, 2)].
Proof.
  exists {[ 0%nat := [(10, 1); (20, 2)] ]}.
  repeat split; reflexivity.
Qed.

(** ** Run-wise normalisation *)

Lemma count_split (P Q R : Z -> Prop)
    `{!forall v, Decision (P v), !forall v, Decision (Q v),
      !forall v, Decision (R v)} (l : list Z) :
  (forall v, v ∈ l -> R v <-> P v \/ Q v) ->
  (forall v, v ∈ l -> ~ (P v /\ Q v)) ->
  length (filter R l) = (length (filter P l) + length (filter Q l))%nat.
Proof.
  induction l as [|v l IH]; intros Hor Hdisj; [done|].
  rewrite !filter_cons.
  assert (Hv : v ∈ v :: l) by left.
  pose proof (Hor v Hv). pose proof (Hdisj v Hv).
  assert (IH' : length (filter R l)
                = (length (filter P l) + length (filter Q l))%nat).
  { apply IH; intros w Hw; [apply Hor|apply Hdisj]; by right. }
  destruct (decide (R v)), (decide (P v)), (decide (Q v)); simpl;
    (lia || tauto).
Qed.

Section normalize_facts.
Context {Row : Type} (fit_transform : list Row -> result (list Row)).
Context (bold_data_ : list Row) (run_ids : list Z).

Local Abbreviation eq_mask r :=
  ((fun v => bool_decide (v = r)) <$> run_ids).

Lemma mask_rows_total (X : list Row) (mask : list bool) :
  length X = length mask -> exists rows, mask_rows X mask = Ok rows.
Proof.
  revert mask. induction X as [|x X IH]; intros [|b mask] Hlen;
    simpl in *; try discriminate; [eauto|].
  destruct (IH mask) as [xs ->]; [lia|]. simpl. eauto.
Qed.

Lemma mask_rows_length (X : list Row) (ids : list Z) r rows :
  mask_rows X ((fun v => bool_decide (v = r)) <$> ids) = Ok rows ->
  length rows = length (filter (fun v => v = r) ids).
Proof.
  revert ids rows. induction X as [|x X IH]; intros [|v ids] rows Hrun;
    simpl in Hrun; try discriminate.
  - by injection Hrun as <-.
  - apply bind_Ok_inv in Hrun as (xs & Hxs & Hrows).
    injection Hrows as <-. apply IH in Hxs.
    rewrite filter_cons. case_bool_decide.
    + rewrite decide_True by done. simpl. by rewrite Hxs.
    + by rewrite decide_False by done.
Qed.

Lemma mask_rows_lookup (X : list Row) (ids : list Z) r rows (j : nat) :
  mask_rows X ((fun v => bool_decide (v = r)) <$> ids) = Ok rows ->
  ids !! j = Some r ->
  rows !! rank_in_run ids r j = X !! j.
Proof.
  unfold rank_in_run.
  revert ids rows j. induction X as [|x X IH]; intros [|v ids] rows j Hrun;
    simpl in Hrun; try discriminate.
  apply bind_Ok_inv in Hrun as (xs & Hxs & Hrows).
  injection Hrows as <-. destruct j as [|j]; simpl.
  - intros [= ->]. by rewrite bool_decide_true.
  - intros Hj. rewrite filter_cons. case_bool_decide.
    + rewrite decide_True by done. simpl. by apply IH.
    + rewrite decide_False by done. by apply IH.
Qed.

Hypothesis fit_transform_rows : forall rows block,
  fit_transform rows = Ok block -> length block = length rows.

Lemma block_of_length r block :
  block_of fit_transform bold_data_ (IdArray run_ids) r block ->
  length block = length (filter (fun v => v = r) run_ids).
Proof.
  intros (rows & Hrows & Hblock).
  rewrite (fit_transform_rows _ _ Hblock).
  by eapply mask_rows_length.
Qed.

(** The blocks of runs [0 .. a-1] hold as many rows as there are
    run identifiers in that range. *)
Lemma blocks_length (a : nat) blocks :
  Forall2 (block_of fit_transform bold_data_ (IdArray run_ids))
          (seqZ 0 (Z.of_nat a)) blocks ->
  length (concat blocks)
  = length (filter (fun v => 0 <= v < Z.of_nat a) run_ids).
Proof.
  revert blocks. induction a as [|a IH]; intros blocks Hblocks.
  - rewrite seqZ_nil in Hblocks by lia.
    apply Forall2_nil_inv_l in Hblocks as ->. simpl.
    symmetry. apply length_zero_iff_nil.
    induction run_ids as [|v l IHl]; [done|].
    rewrite filter_cons. destruct (decide _) as [Hv|]; [simpl in Hv; lia|done].
  - rewrite seqZ_S in Hblocks.
    apply Forall2_app_inv_l in Hblocks as (b1 & b2 & H1 & H2 & ->).
    apply Forall2_cons_inv_l in H2 as (blk & b3 & Hblk & H3 & ->).
    apply Forall2_nil_inv_l in H3 as ->.
    rewrite concat_app, length_app, (IH _ H1). simpl.
    rewrite app_nil_r, (block_of_length _ _ Hblk), Z.add_0_l.
    symmetry. apply count_split; intros v _; lia.
Qed.

(** Row [i] of the block of run [r] sits in the stacked result after the
    blocks of the runs below [r]. *)
Lemma blocks_lookup (n : Z) blocks r block (i : nat) :
  Forall2 (block_of fit_transform bold_data_ (IdArray run_ids)) (seqZ 0 n) blocks ->
  0 <= r < n ->
  block_of fit_transform bold_data_ (IdArray run_ids) r block ->
  (i < length block)%nat ->
  concat blocks
    !! (length (filter (fun v : Z => (0 <= v < r)%Z) run_ids) + i)%nat
  = block !! i.
Proof.
  intros Hblocks Hr Hblock Hi.
  replace n with (r + (n - r)) in Hblocks by lia.
  rewrite seqZ_app, Z.add_0_l in Hblocks by lia.
  rewrite (seqZ_cons r) in Hblocks by lia.
  apply Forall2_app_inv_l in Hblocks as (b1 & b2 & H1 & H2 & ->).
  apply Forall2_cons_inv_l in H2 as (blk & b3 & Hblk & H3 & ->).
  assert (blk = block) as ->.
  { destruct Hblk as (rows & Hrows & Hb), Hblock as (rows' & Hrows' & Hb').
    congruence. }
  rewrite <- (Z2Nat.id r) in H1 by lia. apply blocks_length in H1.
  rewrite Z2Nat.id in H1 by lia. rewrite <- H1.
  rewrite concat_app, lookup_app_r by lia.
  replace (length (concat b1) + i - length (concat b1))%nat with i by lia.
  simpl. by rewrite lookup_app_l by done.
Qed.
End normalize_facts.




Section normalize_loop.
Context {Row : Type} (vdc_n_runs : Z).
Context (fit_transform : list Row -> result (list Row)).
Context (bold_data_ : list Row) (run_ids : run_ids_arg).

End normalize_loop.

Lemma mask_rows_origin {A} (X : list A) (mask : list bool) xs
    (i : nat) x :
  mask_rows X mask = Ok xs -> xs !! i = Some x ->
  exists j, X !! j = Some x /\ mask !! j = Some true.
Proof.
  revert mask xs i.
  induction X as [|x0 X IH]; intros [|b mask] xs i HX Hi;
    simpl in HX; try discriminate.
  - injection HX as <-. by rewrite lookup_nil in Hi.
  - apply bind_Ok_inv in HX as (xs' & HX & Hxs). injection Hxs as <-.
    destruct b.
    + destruct i as [|i]; simpl in Hi.
      * injection Hi as ->. by exists 0%nat.
      * destruct (IH _ _ _ HX Hi) as (j & Hj & Hm). by exists (S j).
    + destruct (IH _ _ _ HX Hi) as (j & Hj & Hm). by exists (S j).
Qed.


(** *** The scaler *)

Section StandardScaler_facts.
Context (col_mean col_scale : list float -> float).

Lemma StandardScaler_fit_transform_rows (rows block : list (list float)) :
  StandardScaler_fit_transform col_mean col_scale rows = Ok block ->
  length block = length rows.
Proof.
  unfold StandardScaler_fit_transform. intros Hrun.
  apply bind_Ok_inv in Hrun as (stats & _ & Hblock).
  injection Hblock as <-. apply length_fmap.
Qed.


End StandardScaler_facts.




(** * Further properties of the notebook's functions *)

(** ** [label2TR] *)

(** X1. Whenever [label2TR] returns, the vector has [TRs_run * 3]
    entries, whatever the events and [num_runs] are. *)
Theorem label2TR_result_length stim_label num_runs TR TRs_run out :
  label2TR stim_label num_runs TR TRs_run = Ok out ->
  length out = Z.to_nat (TRs_run * 3).
Proof.
  rewrite label2TR_flat. intros Hrun.
  apply bind_Ok_inv in Hrun as (er & _ & Hrun).
  apply bind_Ok_inv in Hrun as (zeros & Hz & Hrun).
  unfold np_zeros in Hz. destruct (TRs_run * 3 <? 0); [done|].
  injection Hz as <-.
  rewrite <- (length_replicate (Z.to_nat (TRs_run * 3)) 0%float).
  eapply loop_length; [|done].
  intros k. unfold range. rewrite elem_of_seqZ. lia.
Qed.

Lemma label2TR_result_length_witness :
  exists out,
    label2TR [Event 1 0; Event 2 3; Event 3 0; Event 1 3] 4 1.5 4
      = Ok out /\
    length out = 12%nat.
Proof.
  exists [1; 0; 0; 0; 0; 2; 3; 0; 0; 0; 0; 1]%float.
  split; [reflexivity|].
  apply (label2TR_result_length
           [Event 1 0; Event 2 3; Event 3 0; Event 1 3] 4 1.5 4).
  reflexivity.
Defined.

(** X2. Every entry of the returned vector is 0 or the condition label
    of an event that was read and whose [TR_idx] denotes that entry:
    nothing else is ever written. *)
Theorem label2TR_entries_from_events
    stim_label num_runs TR TRs_run out (p : nat) (v : float) :
  label2TR stim_label num_runs TR TRs_run = Ok out ->
  out !! p = Some v ->
  v = 0%float \/
  exists k ev,
    0 <= k < events_read stim_label num_runs /\
    stim_label !! Z.to_nat k = Some ev /\
    v = cond ev /\
    slot_of stim_label num_runs TR TRs_run k = Ok p.
Proof.
  rewrite label2TR_flat. intros Hrun.
  apply bind_Ok_inv in Hrun as (er & _ & Hrun).
  apply bind_Ok_inv in Hrun as (zeros & Hz & Hrun).
  unfold np_zeros in Hz. destruct (TRs_run * 3 <? 0); [done|].
  injection Hz as <-. revert p v.
  set (P := fun arr : list float =>
    length arr = Z.to_nat (TRs_run * 3) /\
    forall (p : nat) (v : float), arr !! p = Some v ->
      v = 0%float \/
      exists k ev,
        0 <= k < events_read stim_label num_runs /\
        stim_label !! Z.to_nat k = Some ev /\
        v = cond ev /\
        slot_of stim_label num_runs TR TRs_run k = Ok p).
  assert (HP : P out); [|by destruct HP].
  eapply (for_invariant P); [| |exact Hrun].
  - intros k t t' Hk [Hlen Ht] Hstep.
    unfold range in Hk. apply elem_of_seqZ in Hk.
    assert (Hkr : 0 <= k < events_read stim_label num_runs) by lia.
    destruct (step_Ok _ _ _ _ _ _ _ Hkr Hstep)
      as (ev & q & Hev & Hq & ->).
    split; [by rewrite length_insert|].
    intros p v Hp. destruct (decide (p = q)) as [->|Hne].
    + rewrite list_lookup_insert_eq in Hp by (by eapply event_slot_lt).
      assert (v = cond ev) as ->
        by (apply (f_equal (default 0%float)) in Hp; by simpl in Hp).
      right. exists k, ev.
      split; [lia|]. split; [done|]. split; [done|].
      unfold slot_of. by rewrite Hev, <- Hlen.
    + rewrite list_lookup_insert_ne in Hp by done. by apply Ht.
  - split; [apply length_replicate|].
    intros p v Hp. apply lookup_replicate in Hp as [-> _]. by left.
Qed.

(** The onset and [TR] of the example are the binary64 numbers 1 and the
    one nearest to 0.1: their rounded quotient is 10, and the label is at
    index 10. *)
Lemma label2TR_entries_from_events_witness :
  label2TR [Event 2 1] 1 0x1.999999999999ap-4 4
    = Ok (<[10%nat := 2%float]> (replicate 12 0%float)) /\
  (2%float = 0%float \/
   exists k ev,
     0 <= k < events_read [Event 2 1] 1 /\
     [Event 2 1] !! Z.to_nat k = Some ev /\
     2%float = cond ev /\
     slot_of [Event 2 1] 1 0x1.999999999999ap-4 4 k = Ok 10%nat).
Proof.
  split; [reflexivity|].
  apply (label2TR_entries_from_events [Event 2 1] 1 0x1.999999999999ap-4 4
           (<[10%nat := 2%float]> (replicate 12 0%float)) 10%nat 2%float);
    reflexivity.
Defined.

(** X3. With fewer events than runs, or a negative [num_runs], no event
    is read and the result is the all-zero vector; [TR] is not even
    looked at, so a zero [TR] goes unnoticed. *)
Theorem label2TR_reads_nothing stim_label num_runs TR TRs_run :
  num_runs <> 0 -> 0 <= TRs_run ->
  num_runs < 0 \/ Z.of_nat (length stim_label) < num_runs ->
  label2TR stim_label num_runs TR TRs_run
  = Ok (replicate (Z.to_nat (TRs_run * 3)) 0%float).
Proof.
  intros Hnr HN Hfew. rewrite label2TR_flat. unfold int_truediv, np_zeros.
  destruct (Z.eqb_spec num_runs 0); [done|]. simpl.
  destruct (Z.ltb_spec (TRs_run * 3) 0); [lia|]. simpl.
  assert (events_read stim_label num_runs = 0) as ->; [|done].
  unfold events_read, events_run_of.
  destruct (Z.ltb_spec 0 num_runs); [|done].
  rewrite Z.quot_small by lia. lia.
Qed.

Lemma label2TR_reads_nothing_witness :
  label2TR [Event 1 0; Event 2 3] 3 0 4 = Ok (replicate 12 0%float).
Proof.
  apply (label2TR_reads_nothing [Event 1 0; Event 2 3] 3 0 4);
    [discriminate | lia | right; simpl; lia].
Defined.

(** X4. Where the code puts an event: event [i] of run [r] (the event
    at input position [r * events_run + i]) for which [int (time / TR)]
    is [q] and [q + r * (TRs_run - 1)] is not negative is written at
    that index, and stays there unless a later event is written to the
    same index. A run that returns has kept that index below
    [TRs_run * 3]. *)
Theorem label2TR_event_position
    stim_label num_runs TR TRs_run out r i ev q :
  label2TR stim_label num_runs TR TRs_run = Ok out ->
  0 <= r < num_runs ->
  0 <= i < events_run_of stim_label num_runs ->
  stim_label !! Z.to_nat (r * events_run_of stim_label num_runs + i)
    = Some ev ->
  int_np_div (onset ev) TR = Ok q ->
  0 <= q + r * (TRs_run - 1) ->
  (forall k',
     r * events_run_of stim_label num_runs + i < k'
       < events_read stim_label num_runs ->
     slot_of stim_label num_runs TR TRs_run k'
     <> Ok (Z.to_nat (q + r * (TRs_run - 1)))) ->
  q + r * (TRs_run - 1) < TRs_run * 3 /\
  out !! Z.to_nat (q + r * (TRs_run - 1)) = Some (cond ev).
Proof.
  intros Hrun Hr Hi Hev Hq Hidx Hlater.
  set (er := events_run_of stim_label num_runs) in *.
  set (k := r * er + i) in *.
  assert (Hk : 0 <= k < events_read stim_label num_runs).
  { unfold events_read. fold er.
    destruct (Z.ltb_spec 0 num_runs); [|lia]. unfold k. nia. }
  assert (Hrun_of : run_of stim_label num_runs k = r).
  { unfold run_of. fold er. unfold k.
    rewrite Z.div_add_l, Z.div_small by lia. lia. }
  assert (Hok : ~ bad_event stim_label num_runs TR TRs_run k)
    by (by eapply label2TR_Ok_not_bad).
  assert (Hlen : length out = Z.to_nat (TRs_run * 3))
    by (by eapply label2TR_length).
  assert (Hslot : exists p,
    event_slot TR TRs_run r (Z.to_nat (TRs_run * 3)) ev = Ok p).
  { apply not_raises_Ok. intros Hbad. apply Hok. exists ev.
    split; [done|]. by rewrite Hrun_of. }
  destruct Hslot as [p Hp].
  pose proof Hp as Hp'.
  apply event_slot_Ok in Hp' as (q' & Hq' & Hix).
  assert (q' = q) as -> by congruence.
  apply index_Ok in Hix as [[Hrange ->]|[Hneg _]]; [|lia].
  split; [lia|].
  eapply label2TR_last_write; [done..|by rewrite Hrun_of|].
  intros k' ev' Hk' Hev' Hhit. apply (Hlater k' Hk').
  unfold slot_of. by rewrite Hev'.
Qed.

(** In the example the event of run 1 has onset 1 and [TR] is the
    binary64 number nearest to 0.1: [int (time / TR)] is 10, and the
    label is at index [10 + 1 * (7 - 1)]. *)
Lemma label2TR_event_position_witness :
  int_np_div 1 0x1.999999999999ap-4 = Ok 10 /\
  exists out,
    label2TR [Event 1 0; Event 2 1] 2 0x1.999999999999ap-4 7 = Ok out /\
    out !! 16%nat = Some 2%float.
Proof.
  split; [reflexivity|].
  exists (<[16%nat := 2%float]> (<[0%nat := 1%float]>
            (replicate 21 0%float))).
  split; [reflexivity|].
  apply (label2TR_event_position
           [Event 1 0; Event 2 1] 2 0x1.999999999999ap-4 7
           (<[16%nat := 2%float]> (<[0%nat := 1%float]>
              (replicate 21 0%float)))
           1 0 (Event 2 1) 10).
  - reflexivity.
  - lia.
  - vm_compute. split; [discriminate|reflexivity].
  - reflexivity.
  - reflexivity.
  - vm_compute. discriminate.
  - intros k' Hk'.
    assert (Hn : events_read [Event 1 0; Event 2 1] 2 = 2) by reflexivity.
    assert (He : events_run_of [Event 1 0; Event 2 1] 2 = 1)
      by reflexivity.
    rewrite Hn, He in Hk'. lia.
Defined.

(** ** The folds of [decode] *)

Lemma filter_ext_in {A} (P Q : A -> Prop)
    `{!forall x, Decision (P x), !forall x, Decision (Q x)} (l : list A) :
  (forall x, x ∈ l -> P x <-> Q x) -> filter P l = filter Q l.
Proof.
  induction l as [|x l IH]; intros Hext; [done|].
  rewrite !filter_cons.
  assert (Hx : P x <-> Q x) by (apply Hext; left).
  rewrite IH by (intros z Hz; apply Hext; by right).
  destruct (decide (P x)), (decide (Q x)); tauto.
Qed.

Lemma np_where_complement (mask : list bool) :
  np_where (negb <$> mask) ++ np_where mask ≡ₚ seq 0 (length mask).
Proof.
  unfold np_where. rewrite length_fmap.
  rewrite (filter_ext_in _ (fun i => ~ (mask !! i = Some true))).
  - rewrite Permutation_app_comm. apply filter_app_complement.
  - intros i Hi. apply elem_of_seq in Hi.
    rewrite list_lookup_fmap.
    destruct (lookup_lt_is_Some_2 mask i) as [b Hb]; [lia|].
    rewrite Hb. simpl. destruct b; simpl; split; congruence.
Qed.

Lemma StronglySorted_le_lookup (l : list Z) (n m : nat) (x y : Z) :
  StronglySorted Z.le l -> l !! n = Some x -> l !! m = Some y ->
  (n < m)%nat -> x <= y.
Proof.
  intros Hl. revert n m. induction Hl as [|z l Hl IH Hz]; intros n m Hn Hm Hlt.
  - by rewrite lookup_nil in Hn.
  - destruct m as [|m]; [lia|]. simpl in Hm. destruct n as [|n].
    + injection Hn as ->. rewrite Forall_forall in Hz.
      apply Hz. by eapply list_elem_of_lookup_2.
    + simpl in Hn. apply (IH n m); [done..|lia].
Qed.

Lemma split_fold_permutation (cv_ids : list Z) (n : nat) train test :
  split (PredefinedSplit_init cv_ids) !! n = Some (train, test) ->
  train ++ test ≡ₚ seq 0 (length cv_ids).
Proof.
  intros Hn. apply split_lookup in Hn as (f & _ & -> & ->).
  rewrite np_where_complement. unfold test_mask.
  by rewrite length_fmap.
Qed.

(** X6. In every fold the training rows and the test rows together are
    all the rows of the data, each once: a fold leaves no row out, the
    rows keyed [-1] included (they are training rows). *)
Theorem split_fold_covers_rows (cv_ids : list Z) (n : nat) train test :
  split (PredefinedSplit_init cv_ids) !! n = Some (train, test) ->
  train ++ test ≡ₚ seq 0 (length cv_ids).
Proof. apply split_fold_permutation. Qed.

Lemma split_fold_covers_rows_witness :
  [0; 1; 3; 4]%nat ++ [2]%nat ≡ₚ seq 0 (length [2; 0; 1; 0; -1]%Z).
Proof.
  apply (split_fold_covers_rows [2; 0; 1; 0; -1] 1). reflexivity.
Defined.

(** X7. The folds come in strictly ascending order of their key: the
    test rows of an earlier fold carry a smaller key than those of a
    later fold. *)
Theorem split_folds_ascending_keys (cv_ids : list Z) (n m : nat)
    train test train' test' (i j : nat) (a b : Z) :
  split (PredefinedSplit_init cv_ids) !! n = Some (train, test) ->
  split (PredefinedSplit_init cv_ids) !! m = Some (train', test') ->
  (n < m)%nat ->
  i ∈ test -> j ∈ test' ->
  cv_ids !! i = Some a -> cv_ids !! j = Some b ->
  a < b.
Proof.
  intros Hn Hm Hlt Hi Hj Ha Hb.
  apply split_lookup in Hn as (f & Hf & _ & ->).
  apply split_lookup in Hm as (g & Hg & _ & ->).
  apply elem_of_test_rows in Hi, Hj. simpl in Hi, Hj.
  assert (a = f) as -> by congruence.
  assert (b = g) as -> by congruence.
  assert (Hle : f <= g).
  { apply (StronglySorted_le_lookup
             (unique_folds (PredefinedSplit_init cv_ids)) n m);
      [|done..].
    apply Sorted_StronglySorted; [intros x y z; lia|].
    apply split_folds_ascending. }
  assert (Hne : f <> g).
  { intros ->.
    assert (n = m); [|lia].
    eapply NoDup_lookup; [apply NoDup_unique_folds|done..]. }
  lia.
Qed.

Lemma split_folds_ascending_keys_witness :
  split (PredefinedSplit_init [2; 0; 1; 0; -1])
    = [([0; 2; 4], [1; 3]); ([0; 1; 3; 4], [2]); ([1; 2; 3; 4], [0])]%nat /\
  0 < 2.
Proof.
  split; [reflexivity|].
  apply (split_folds_ascending_keys [2; 0; 1; 0; -1] 0 2
           [0; 2; 4]%nat [1; 3]%nat [1; 2; 3; 4]%nat [0]%nat 3%nat 0%nat);
    try reflexivity; try lia.
  - apply elem_of_cons. right. apply elem_of_cons. by left.
  - apply elem_of_cons. by left.
Defined.

(** ** [decode] *)

Lemma take_rows_take {A} (X : list A) (n : nat) (index : list nat) :
  (forall i, i ∈ index -> (i < n)%nat) ->
  take_rows (take n X) index = take_rows X index.
Proof.
  induction index as [|i index IH]; intros Hlt; [done|].
  simpl. rewrite lookup_take_lt by (apply Hlt; left).
  rewrite IH; [done|]. intros j Hj. apply Hlt. by right.
Qed.

Lemma take_rows_cases {A} (X : list A) (index : list nat) :
  (exists rows, take_rows X index = Ok rows /\
                forall i, i ∈ index -> (i < length X)%nat) \/
  (take_rows X index = Raise IndexError /\
   exists i, i ∈ index /\ (length X <= i)%nat).
Proof.
  induction index as [|i index IH]; simpl.
  - left. exists []. split; [done|]. intros i Hi. by apply elem_of_nil in Hi.
  - destruct (X !! i) as [x|] eqn:Hx; simpl.
    + destruct IH as [(rows & -> & Hall)|(-> & j & Hj & Hge)]; simpl.
      * left. exists (x :: rows). split; [done|].
        intros j Hj. apply elem_of_cons in Hj as [->|Hj]; [|by apply Hall].
        by eapply lookup_lt_Some.
      * right. split; [done|]. exists j. split; [by right|done].
    + right. split; [done|]. exists i. split; [left|].
      by apply lookup_ge_None.
Qed.

Lemma split_rows_lt (cv_ids : list Z) train test (i : nat) :
  (train, test) ∈ split (PredefinedSplit_init cv_ids) ->
  i ∈ train \/ i ∈ test -> (i < length cv_ids)%nat.
Proof.
  intros Hfold Hi. apply list_elem_of_lookup_1 in Hfold as [n Hn].
  assert (Hperm := split_fold_permutation _ _ _ _ Hn).
  assert (Hin : i ∈ train ++ test) by (by apply elem_of_app).
  rewrite Hperm in Hin. apply elem_of_seq in Hin. lia.
Qed.

(** X8. [decode] returns one score per distinct fold key other than
    [-1], and as many entries in its list of classifiers, every one of
    them the reference [model] it was given. *)
Theorem decode_result_shape {Row Label State : Type}
    `{!Classifier Row Label State}
    (X : list Row) (y : list Label) (cv_ids : list Z) (model : ref)
    (h : gmap ref State) models scores h' :
  decode X y cv_ids model h = Ok (models, scores, h') ->
  models
  = replicate (length (unique_folds (PredefinedSplit_init cv_ids))) model /\
  length scores = length (unique_folds (PredefinedSplit_init cv_ids)).
Proof.
  intros Hrun. apply decode_models_alias in Hrun as [-> ->].
  by rewrite (proj2 (split_folds_ascending cv_ids)).
Qed.

Lemma decode_result_shape_witness :
  [0; 0]%nat
  = replicate (length (unique_folds (PredefinedSplit_init [0; 0; 1; 1])))
              0%nat /\
  length [1 # 2; 1 # 2]%Q
  = length (unique_folds (PredefinedSplit_init [0; 0; 1; 1])).
Proof.
  apply (decode_result_shape [10; 20; 10; 21] [1; 2; 1; 2] [0; 0; 1; 1]
           0%nat {[ 0%nat := [] ]} [0; 0]%nat [1 # 2; 1 # 2]%Q
           {[ 0%nat := [(10, 1); (20, 2)] ]}).
  reflexivity.
Defined.

Lemma decode_loop_scores {Row Label State : Type}
    `{!Classifier Row Label State}
    (X : list Row) (y : list Label) (model : ref)
    (folds : list (list nat * list nat)) ms ss (h0 : gmap ref State)
    ms' ss' h' :
  (forall st st' Xt yt, fit st Xt yt = fit st' Xt yt) ->
  for_ folds (decode_body X y model) (ms, ss, h0) = Ok (ms', ss', h') ->
  exists new,
    ss' = ss ++ new /\
    Forall2 (fun fold s =>
      exists X_train X_test y_train y_test,
        take_rows X fold.1 = Ok X_train /\
        take_rows X fold.2 = Ok X_test /\
        take_rows y fold.1 = Ok y_train /\
        take_rows y fold.2 = Ok y_test /\
        forall st0, exists st,
          fit st0 X_train y_train = Ok st /\
          score st X_test y_test = Ok s) folds new.
Proof.
  intros Hfresh. revert ms ss h0.
  induction folds as [|[train test] folds IH]; intros ms ss h0 Hrun.
  - injection Hrun as <- <- <-. exists []. by rewrite app_nil_r.
  - simpl in Hrun.
    apply bind_Ok_inv in Hrun as ([[ms1 ss1] h1] & Hstep & Hrest).
    apply bind_Ok_inv in Hstep as (X_train & HXtr & Hstep).
    apply bind_Ok_inv in Hstep as (X_test & HXte & Hstep).
    apply bind_Ok_inv in Hstep as (y_train & Hytr & Hstep).
    apply bind_Ok_inv in Hstep as (y_test & Hyte & Hstep).
    apply bind_Ok_inv in Hstep as (st & Hst & Hstep).
    apply bind_Ok_inv in Hstep as (st1 & Hfit & Hstep).
    apply bind_Ok_inv in Hstep as (s & Hscore & Hstep).
    injection Hstep as <- <- <-.
    apply IH in Hrest as (new & -> & Hnew).
    exists (s :: new). rewrite <- app_assoc. split; [done|].
    constructor; [|done]. simpl.
    exists X_train, X_test, y_train, y_test. repeat split; try done.
    intros st0. exists st1. by rewrite (Hfresh st0 st).
Qed.

(** X10. With a classifier whose [fit] starts from scratch (its result
    does not depend on the state fitted before), the n-th score is the
    score, on the test rows of the n-th fold, of a fit on the training
    rows of that fold alone: refitting the one shared object leaks
    nothing from fold to fold into the scores. *)
Theorem decode_scores_fold_fresh {Row Label State : Type}
    `{!Classifier Row Label State}
    (X : list Row) (y : list Label) (cv_ids : list Z) (model : ref)
    (h : gmap ref State) models scores h' (n : nat) train test :
  (forall st st' Xt yt, fit st Xt yt = fit st' Xt yt) ->
  decode X y cv_ids model h = Ok (models, scores, h') ->
  split (PredefinedSplit_init cv_ids) !! n = Some (train, test) ->
  exists X_train X_test y_train y_test s,
    take_rows X train = Ok X_train /\
    take_rows X test = Ok X_test /\
    take_rows y train = Ok y_train /\
    take_rows y test = Ok y_test /\
    scores !! n = Some s /\
    forall st0, exists st,
      fit st0 X_train y_train = Ok st /\
      score st X_test y_test = Ok s.
Proof.
  intros Hfresh Hrun Hn. unfold decode in Hrun.
  apply (decode_loop_scores _ _ _ _ _ _ _ _ _ _ Hfresh) in Hrun
    as (new & -> & Hnew).
  destruct (Forall2_lookup_l _ _ _ _ _ Hnew Hn)
    as (s & Hs & X_train & X_test & y_train & y_test & H1 & H2 & H3 & H4 & H5).
  exists X_train, X_test, y_train, y_test, s. simpl in *.
  repeat split; done.
Qed.

Lemma decode_scores_fold_fresh_witness :
  exists X_train X_test y_train y_test s,
    take_rows [10; 20; 10; 21] [2; 3]%nat = Ok X_train /\
    take_rows [10; 20; 10; 21] [0; 1]%nat = Ok X_test /\
    take_rows [1; 2; 1; 2] [2; 3]%nat = Ok y_train /\
    take_rows [1; 2; 1; 2] [0; 1]%nat = Ok y_test /\
    [1 # 2; 1 # 2]%Q !! 0%nat = Some s /\
    forall st0 : list (Z * Z), exists st,
      fit st0 X_train y_train = Ok st /\
      score st X_test y_test = Ok s.
Proof.
  apply (decode_scores_fold_fresh [10; 20; 10; 21] [1; 2; 1; 2]
           [0; 0; 1; 1] 0%nat {[ 0%nat := [] ]} [0; 0]%nat
           [1 # 2; 1 # 2]%Q {[ 0%nat := [(10, 1); (20, 2)] ]} 0%nat);
    reflexivity.
Defined.

(** X11. [decode] reads no row of [X] or [y] beyond the length of
    [cv_ids]: surplus rows are ignored without any error. *)
Theorem decode_ignores_surplus_rows {Row Label State : Type}
    `{!Classifier Row Label State}
    (X : list Row) (y : list Label) (cv_ids : list Z) (model : ref)
    (h : gmap ref State) :
  decode X y cv_ids model h
  = decode (take (length cv_ids) X) (take (length cv_ids) y)
           cv_ids model h.
Proof.
  unfold decode. apply for_ext.
  intros [train test] [[ms ss] h0] Hfold. unfold decode_body.
  rewrite !take_rows_take; [done|..];
    intros i Hi; eapply split_rows_lt; eauto.
Qed.

(** X12. When [X] has fewer rows than [cv_ids] and some fold key is not
    [-1], [decode] raises [IndexError] in its first fold: fitting never
    starts. *)
Theorem decode_short_data_raises {Row Label State : Type}
    `{!Classifier Row Label State}
    (X : list Row) (y : list Label) (cv_ids : list Z) (model : ref)
    (h : gmap ref State) (f : Z) :
  (length X < length cv_ids)%nat ->
  f ∈ cv_ids -> f <> -1 ->
  decode X y cv_ids model h = Raise IndexError.
Proof.
  intros Hshort Hf Hne.
  assert (Hin : f ∈ unique_folds (PredefinedSplit_init cv_ids))
    by (by apply elem_of_unique_folds).
  unfold decode.
  destruct (split (PredefinedSplit_init cv_ids))
    as [|[train test] folds] eqn:Hsplit.
  { apply (f_equal length) in Hsplit.
    rewrite (proj2 (split_folds_ascending cv_ids)) in Hsplit.
    destruct (unique_folds (PredefinedSplit_init cv_ids)); [|done].
    by apply elem_of_nil in Hin. }
  assert (Hn : split (PredefinedSplit_init cv_ids) !! 0%nat
               = Some (train, test)) by (by rewrite Hsplit).
  assert (Hcover := split_fold_permutation _ _ _ _ Hn).
  assert (Hrow : length X ∈ train ++ test).
  { rewrite Hcover. apply elem_of_seq. lia. }
  simpl. unfold decode_body at 1.
  destruct (take_rows_cases X train)
    as [(X_train & -> & Htrain)|(-> & _)]; [|done].
  simpl.
  destruct (take_rows_cases X test)
    as [(X_test & -> & Htest)|(-> & _)]; [|done].
  apply elem_of_app in Hrow as [Hrow|Hrow];
    [apply Htrain in Hrow|apply Htest in Hrow]; lia.
Qed.

Lemma decode_short_data_raises_witness :
  decode [10; 20] [1; 2; 1] [0; 1; 1] 0%nat {[ 0%nat := [] ]}
  = Raise IndexError.
Proof.
  apply (decode_short_data_raises [10; 20] [1; 2; 1] [0; 1; 1] 0%nat
           {[ 0%nat := [] ]} 0); [simpl; lia | by left | discriminate].
Defined.

(** ** [normalize] *)

Lemma mask_rows_Ok_length {A} (X : list A) (mask : list bool) rows :
  mask_rows X mask = Ok rows -> length X = length mask.
Proof.
  revert mask rows. induction X as [|x X IH]; intros [|b mask] rows Hrun;
    simpl in Hrun; try discriminate; [done|].
  apply bind_Ok_inv in Hrun as (xs & Hxs & _).
  simpl. f_equal. by eapply IH.
Qed.

Lemma mask_rows_mismatch {A} (X : list A) (mask : list bool) :
  length X <> length mask -> mask_rows X mask = Raise IndexError.
Proof.
  revert mask. induction X as [|x X IH]; intros [|b mask] Hlen;
    simpl in *; try done.
  rewrite IH by lia. done.
Qed.

Lemma normalize_loop_inv {Row : Type}
    (fit_transform : list Row -> result (list Row))
    (bold_data_ : list Row) (run_ids : run_ids_arg) rs
    (acc data : list (list Row)) :
  for_ rs (fun r data =>
             do rows <- rows_of_run bold_data_ run_ids r;
             do z <- fit_transform rows;
             Ok (data ++ [z])) acc = Ok data ->
  exists blocks,
    data = acc ++ blocks /\
    Forall2 (block_of fit_transform bold_data_ run_ids) rs blocks.
Proof.
  revert acc. induction rs as [|r rs IH]; intros acc Hrun.
  - injection Hrun as <-. exists []. by rewrite app_nil_r.
  - simpl in Hrun. apply bind_Ok_inv in Hrun as (acc' & Hstep & Hrest).
    apply bind_Ok_inv in Hstep as (rows & Hrows & Hstep).
    apply bind_Ok_inv in Hstep as (block & Hblock & Hstep).
    injection Hstep as <-.
    apply IH in Hrest as (blocks & -> & Hblocks).
    exists (block :: blocks). rewrite <- app_assoc. split; [done|].
    constructor; [by exists rows|done].
Qed.

(** X13. What [normalize] returns for any order of the run identifiers:
    the rows whose identifier is among [0 .. vdc_n_runs - 1], grouped by
    run in ascending order and, within a run, in their original order.
    Input row [j] of run [r] is found after the rows of the runs below
    [r] and the earlier rows of run [r], transformed by the scaler
    fitted on the rows of run [r]; rows with any other identifier are
    left out. (A result is only returned for run identifiers given as
    an array.) *)
Theorem normalize_groups_rows_by_run {Row : Type} (vdc_n_runs : Z)
    (fit_transform : list Row -> result (list Row))
    (bold_data_ : list Row) (run_ids_ : run_ids_arg) out :
  (forall rows block,
     fit_transform rows = Ok block -> length block = length rows) ->
  normalize vdc_n_runs fit_transform bold_data_ run_ids_ = Ok out ->
  exists run_ids,
    run_ids_ = IdArray run_ids /\
    length bold_data_ = length run_ids /\
    length out
    = length (filter (fun v : Z => 0 <= v < vdc_n_runs) run_ids) /\
    forall (j : nat) r, run_ids !! j = Some r -> 0 <= r < vdc_n_runs ->
      exists rows block,
        rows_of_run bold_data_ run_ids_ r = Ok rows /\
        fit_transform rows = Ok block /\
        rows !! rank_in_run run_ids r j = bold_data_ !! j /\
        out !! (length (filter (fun v : Z => (0 <= v < r)%Z) run_ids)
                + rank_in_run run_ids r j)%nat
        = block !! rank_in_run run_ids r j.
Proof.
  intros Hrows Hrun. unfold normalize in Hrun.
  apply bind_Ok_inv in Hrun as (data & Hloop & Hstack).
  apply normalize_loop_inv in Hloop as (blocks & -> & Hblocks).
  simpl in Hstack.
  assert (Hne : blocks <> []) by (by intros ->).
  assert (out = concat blocks) as ->
    by (destruct blocks; [done|]; by injection Hstack).
  unfold range in Hblocks.
  assert (Hn : 0 < vdc_n_runs).
  { apply Forall2_length in Hblocks. rewrite length_seqZ in Hblocks.
    destruct blocks; [done|]. simpl in Hblocks. lia. }
  assert (H0 : seqZ 0 vdc_n_runs !! 0%nat = Some 0)
    by (by rewrite seqZ_cons by lia).
  destruct (Forall2_lookup_l _ _ _ _ _ Hblocks H0)
    as (block0 & _ & rows0 & Hr0 & _).
  destruct run_ids_ as [run_ids|run_ids]; [|done].
  exists run_ids. split; [done|].
  assert (Hlen : length bold_data_ = length run_ids).
  { apply mask_rows_Ok_length in Hr0. by rewrite length_fmap in Hr0. }
  split; [done|]. split.
  - rewrite <- (Z2Nat.id vdc_n_runs) in Hblocks by lia.
    rewrite (blocks_length _ _ _ Hrows _ _ Hblocks).
    by rewrite Z2Nat.id by lia.
  - intros j r Hj Hr.
    assert (Hr' : r ∈ seqZ 0 vdc_n_runs) by (apply elem_of_seqZ; lia).
    apply list_elem_of_lookup_1 in Hr' as [a Ha].
    destruct (Forall2_lookup_l _ _ _ _ _ Hblocks Ha)
      as (block & _ & rows & Hr1 & Hblock).
    exists rows, block. split; [done|]. split; [done|].
    pose proof (mask_rows_lookup _ _ _ _ _ Hr1 Hj) as Hrow.
    split; [done|].
    apply (blocks_lookup _ _ _ Hrows _ _ r block _ Hblocks Hr);
      [by exists rows|].
    rewrite (Hrows _ _ Hblock). apply lookup_lt_is_Some. rewrite Hrow.
    apply lookup_lt_is_Some. rewrite Hlen. by eapply lookup_lt_Some.
Qed.

Lemma normalize_groups_rows_by_run_witness :
  normalize 3 scaler [[1]; [3]; [7]; [5]; [0]; [2]]%float
            (IdArray [1; 1; 0; 0; 2; 2])
    = Ok [[1]; [-1]; [-1]; [1]; [-1]; [1]]%float /\
  [[1]; [-1]; [-1]; [1]; [-1]; [1]]%float !! 2%nat = Some [(-1)%float].
Proof.
  split; [reflexivity|].
  destruct (normalize_groups_rows_by_run 3 scaler
              [[1]; [3]; [7]; [5]; [0]; [2]]%float
              (IdArray [1; 1; 0; 0; 2; 2])
              [[1]; [-1]; [-1]; [1]; [-1]; [1]]%float)
    as (run_ids & Harg & _ & _ & Hrow).
  - apply StandardScaler_fit_transform_rows.
  - reflexivity.
  - apply (f_equal (fun a => match a with
                             | IdArray ids | IdList ids => ids
                             end)) in Harg. simpl in Harg. subst run_ids.
    destruct (Hrow 0%nat 1) as (rows & block & Hr & Hb & _ & Hout);
      [reflexivity|lia|].
    vm_compute in Hr.
    apply (f_equal (fun r => match r with Ok a => a | Raise _ => [] end))
      in Hr. simpl in Hr. subst rows.
    vm_compute in Hb.
    apply (f_equal (fun r => match r with Ok a => a | Raise _ => [] end))
      in Hb. simpl in Hb. subst block.
    exact Hout.
Defined.

(** X14. When [normalize] fails: exactly when [vdc_n_runs] is not
    positive (nothing to stack), or the run identifiers are given as a
    Python list, or they are an array that does not have one entry per
    row, or the scaler rejects the rows of one of the runs
    [0 .. vdc_n_runs - 1]. *)
Theorem normalize_raises_iff {Row : Type} (vdc_n_runs : Z)
    (fit_transform : list Row -> result (list Row))
    (bold_data_ : list Row) (run_ids_ : run_ids_arg) :
  raises (normalize vdc_n_runs fit_transform bold_data_ run_ids_) <->
  vdc_n_runs <= 0 \/
  (exists ids, run_ids_ = IdList ids) \/
  (exists run_ids,
     run_ids_ = IdArray run_ids /\ length bold_data_ <> length run_ids) \/
  exists r rows,
    0 <= r < vdc_n_runs /\
    rows_of_run bold_data_ run_ids_ r = Ok rows /\
    raises (fit_transform rows).
Proof.
  unfold normalize.
  destruct (Z.le_gt_cases vdc_n_runs 0) as [Hn|Hn].
  { unfold range. rewrite seqZ_nil by done. simpl. tauto. }
  destruct run_ids_ as [run_ids|ids].
  2:{ unfold range. rewrite seqZ_cons by lia. simpl.
      split; [intros _; right; left; by exists ids | done]. }
  destruct (decide (length bold_data_ = length run_ids)) as [Hlen|Hlen].
  - assert (Hmask : forall r, exists rows,
              rows_of_run bold_data_ (IdArray run_ids) r = Ok rows).
    { intros r. apply mask_rows_total. by rewrite length_fmap. }
    destruct (for_ (range vdc_n_runs) _ []) as [data|e] eqn:Hloop; simpl.
    + apply normalize_loop_inv in Hloop as (blocks & -> & Hblocks).
      simpl.
      assert (Hstack : np_vstack blocks = Ok (concat blocks)).
      { destruct blocks; [|done].
        apply Forall2_length in Hblocks. unfold range in Hblocks.
        rewrite length_seqZ in Hblocks. simpl in Hblocks. lia. }
      rewrite Hstack. simpl. split; [done|].
      intros [?|[(ids & [=])|[(ids & [= <-] & ?)
                              |(r & rows & Hr & Hr1 & Hbad)]]];
        [lia|done|].
      assert (Hr' : r ∈ range vdc_n_runs) by (apply elem_of_seqZ; lia).
      apply list_elem_of_lookup_1 in Hr' as [a Ha].
      destruct (Forall2_lookup_l _ _ _ _ _ Hblocks Ha)
        as (block & _ & rows' & Hr1' & Hblock).
      assert (Heq : Ok rows' = Ok rows)
        by exact (eq_trans (eq_sym Hr1') Hr1).
      injection Heq as ->. by rewrite Hblock in Hbad.
    + split; [intros _|done]. right. right. right.
      assert (Hr : raises (for_ (range vdc_n_runs)
        (fun r data =>
           do rows <- rows_of_run bold_data_ (IdArray run_ids) r;
           do z <- fit_transform rows;
           Ok (data ++ [z])) [])) by (by rewrite Hloop).
      apply (for_raises (fun _ => True)
        (fun r => exists rows,
           rows_of_run bold_data_ (IdArray run_ids) r = Ok rows /\
           raises (fit_transform rows))) in Hr; [|done| |done].
      * destruct Hr as (r & Hin & rows & Hr1 & Hbad).
        apply elem_of_seqZ in Hin. exists r, rows. split; [lia|done].
      * intros r t Hin _. destruct (Hmask r) as [rows Hr1].
        rewrite Hr1. simpl.
        destruct (fit_transform rows) as [z|e'] eqn:Hz; simpl.
        -- split; [done|]. intros (rows' & Hr1' & Hbad).
           assert (rows' = rows) as -> by congruence.
           by rewrite Hz in Hbad.
        -- split; [intros _|done]. exists rows. by rewrite Hz.
  - unfold range. rewrite seqZ_cons by lia. simpl.
    rewrite mask_rows_mismatch by (by rewrite length_fmap). simpl.
    split; [intros _|done]. right. right. left. by exists run_ids.
Qed.

Lemma normalize_raises_iff_witness :
  raises (normalize 3 scaler [[1]; [3]; [7]]%float
                    (IdList [0; 1; 2])).
Proof.
  apply (proj2 (normalize_raises_iff 3 scaler [[1]; [3]; [7]]%float
                  (IdList [0; 1; 2]))).
  right. left. by exists [0; 1; 2].
Defined.

(** ** Selecting the rows of two conditions *)

Lemma mask_rows_zip {A B} (X : list A) (Y : list B) (mask : list bool)
    xs ys :
  mask_rows X mask = Ok xs -> mask_rows Y mask = Ok ys ->
  mask_rows (zip X Y) mask = Ok (zip xs ys).
Proof.
  revert Y mask xs ys.
  induction X as [|x X IH]; intros [|y Y] [|b mask] xs ys HX HY;
    simpl in *; try discriminate.
  - by injection HX as <-.
  - apply bind_Ok_inv in HX as (xs' & HX & Hxs).
    apply bind_Ok_inv in HY as (ys' & HY & Hys).
    injection Hxs as <-. injection Hys as <-.
    rewrite (IH _ _ _ _ HX HY). simpl. by destruct b.
Qed.


Lemma mask_rows_count {A} (X : list A) (mask : list bool) xs :
  mask_rows X mask = Ok xs ->
  length xs = length (filter (fun b => b = true) mask).
Proof.
  revert mask xs.
  induction X as [|x X IH]; intros [|b mask] xs HX;
    simpl in HX; try discriminate.
  - by injection HX as <-.
  - apply bind_Ok_inv in HX as (xs' & HX & Hxs). injection Hxs as <-.
    rewrite filter_cons. apply IH in HX. destruct b.
    + rewrite decide_True by done. simpl. by rewrite HX.
    + by rewrite decide_False by done.
Qed.

(** X15. The rows handed to [decode] by the example solution stay
    aligned: the three selected arrays have the same length, and entry
    [i] of each comes from one and the same original row, whose label is
    not the removed condition. *)
Theorem remove_condition_aligned {Row : Type} (c : Z)
    (bold_normalized : list Row) (labels run_ids : list Z)
    bold_so labels_so run_ids_so :
  remove_condition c bold_normalized labels run_ids
    = Ok (bold_so, labels_so, run_ids_so) ->
  length bold_so = length labels_so /\
  length run_ids_so = length labels_so /\
  forall (i : nat) l, labels_so !! i = Some l ->
    l <> c /\
    exists j : nat,
      labels !! j = Some l /\
      bold_so !! i = bold_normalized !! j /\
      run_ids_so !! i = run_ids !! j.
Proof.
  unfold remove_condition. intros Hrun.
  apply bind_Ok_inv in Hrun as (X & HX & Hrun).
  apply bind_Ok_inv in Hrun as (y & Hy & Hrun).
  apply bind_Ok_inv in Hrun as (ids & Hids & Hrun).
  injection Hrun as <- <- <-.
  pose proof (mask_rows_zip _ _ _ _ _ HX Hy) as HXy.
  pose proof (mask_rows_zip _ _ _ _ _ HXy Hids) as Hall.
  assert (Hl1 : length X = length y)
    by (by rewrite (mask_rows_count _ _ _ HX), (mask_rows_count _ _ _ Hy)).
  assert (Hl2 : length ids = length y)
    by (by rewrite (mask_rows_count _ _ _ Hids), (mask_rows_count _ _ _ Hy)).
  split; [done|]. split; [done|].
  intros i l Hi.
  assert (Hlt : (i < length y)%nat) by (by eapply lookup_lt_Some).
  destruct (lookup_lt_is_Some_2 X i) as [x Hx]; [lia|].
  destruct (lookup_lt_is_Some_2 ids i) as [f Hf]; [lia|].
  assert (Hzip : zip (zip X y) ids !! i = Some (x, l, f)).
  { apply lookup_zip_with_Some. exists (x, l), f. split; [done|].
    split; [|done]. apply lookup_zip_with_Some. by exists x, l. }
  destruct (mask_rows_origin _ _ _ _ _ Hall Hzip) as (j & Hj & Hm).
  apply lookup_zip_with_Some in Hj as ([x' l'] & f' & [= <- <- <-] & Hj & Hfj).
  apply lookup_zip_with_Some in Hj as (x' & l' & [= <- <-] & Hxj & Hlj).
  split.
  - unfold label_mask in Hm. rewrite list_lookup_fmap, Hlj in Hm.
    simpl in Hm. injection Hm as Hm. by apply bool_decide_eq_true in Hm.
  - exists j. split; [done|]. by rewrite Hx, Hf, Hxj, Hfj.
Qed.

Lemma remove_condition_aligned_witness :
  remove_condition 1 [10; 20; 30; 40] [1; 2; 3; 2] [0; 0; 1; 1]
    = Ok ([20; 30; 40], [2; 3; 2], [0; 1; 1]) /\
  length [0; 1; 1]%Z = length [2; 3; 2]%Z.
Proof.
  split; [reflexivity|].
  apply (remove_condition_aligned 1 [10; 20; 30; 40] [1; 2; 3; 2]
           [0; 0; 1; 1] [20; 30; 40] [2; 3; 2] [0; 1; 1]).
  reflexivity.
Defined.
